(** * server.ts: an in-memory CRUD REST API (users, products)

    A shallow embedding of [src/server.ts].  The two collections are lists
    threaded through the handlers; a handler either sends a response or hands
    an error to [next]; the router walks the layer stack in registration
    order.  Values that arrive in [req.body] and [req.query] are untyped at
    run time, so they are modelled as JavaScript values with the language's
    own coercions ([ToBoolean], [ToString], [ToNumber]). *)

From Stdlib Require Import ZArith Ascii.
From stdpp Require Import base tactics option list strings pretty gmap.

Set Warnings "-register-all".
Local Open Scope Z_scope.

(** ** JavaScript values and coercions *)

(** Numbers.  The handlers only store numbers, compare them and test them
    for truthiness, and nothing below depends on rounding, so the model keeps
    the integers (as [Z], exactly) and [NaN]; fractions, infinities and the
    rounding of doubles are left out. *)
Inductive number : Type :=
  | NaN
  | Num (z : Z).

(** What a parsed JSON or query-string field can hold; [JUndefined] is what
    reading an absent property gives. *)
Inductive jsval : Type :=
  | JUndefined
  | JNull
  | JBool (b : bool)
  | JNum (n : number)
  | JStr (s : string)
  | JArr (elems : list jsval)
  | JObj (fields : list (string * jsval)).

Global Instance number_eq_dec : EqDecision number.
Proof. solve_decision. Defined.

(** [x >= y] and [x <= y] on numbers: false as soon as one side is NaN. *)
Definition num_ge (x y : number) : bool :=
  match x, y with
  | Num a, Num b => b <=? a
  | _, _ => false
  end.

Definition num_le (x y : number) : bool :=
  match x, y with
  | Num a, Num b => a <=? b
  | _, _ => false
  end.

(** [ToBoolean]: the falsy values are undefined, null, false, 0, NaN and
    the empty string. *)
Definition ToBoolean (v : jsval) : bool :=
  match v with
  | JUndefined | JNull => false
  | JBool b => b
  | JNum NaN => false
  | JNum (Num z) => negb (z =? 0)
  | JStr s => negb (String.eqb s "")
  | JArr _ | JObj _ => true
  end.

(** [v === undefined] *)
Definition is_undefined (v : jsval) : bool :=
  match v with
  | JUndefined => true
  | _ => false
  end.

(** [a || b] *)
Definition or_else (a b : jsval) : jsval :=
  if ToBoolean a then a else b.

Definition NumberToString (n : number) : string :=
  match n with
  | NaN => "NaN"
  | Num z => pretty z
  end.

Fixpoint str_join (sep : string) (l : list string) : string :=
  match l with
  | [] => ""
  | [s] => s
  | s :: l' => s +:+ sep +:+ str_join sep l'
  end.

(** [String(v)].  An array joins its elements with commas, printing
    undefined and null elements as nothing; a plain object prints as
    [[object Object]]. *)
Fixpoint ToString (v : jsval) : string :=
  match v with
  | JUndefined => "undefined"
  | JNull => "null"
  | JBool true => "true"
  | JBool false => "false"
  | JNum n => NumberToString n
  | JStr s => s
  | JArr elems =>
      str_join "," (List.map (fun e =>
                  match e with
                  | JUndefined | JNull => ""
                  | _ => ToString e
                  end) elems)
  | JObj _ => "[object Object]"
  end.

Fixpoint trimStart (s : string) : string :=
  match s with
  | String c s' => if Ascii.is_space c then trimStart s' else s
  | EmptyString => EmptyString
  end.

Definition trim (s : string) : string :=
  String.rev (trimStart (String.rev (trimStart s))).

Fixpoint digits (acc : Z) (s : string) : option Z :=
  match s with
  | EmptyString => Some acc
  | String c s' =>
      match Ascii.is_nat c with
      | Some d => digits (10 * acc + Z.of_nat d) s'
      | None => None
      end
  end.

(** [Number(s)] on a string: surrounding white space is dropped, the empty
    string is 0, a signed run of decimal digits is that integer.  The other
    numeric literals of the language (fractions, exponents, hexadecimal,
    Infinity) are not integers written in decimal and are left at NaN. *)
Definition unsigned_literal (t : string) : option Z :=
  match t with
  | EmptyString => None
  | _ => digits 0 t
  end.

Definition StringToNumber (s : string) : number :=
  match trim s with
  | EmptyString => Num 0
  | String "-"%char t => from_option (fun z => Num (- z)) NaN (unsigned_literal t)
  | String "+"%char t => from_option Num NaN (unsigned_literal t)
  | t => from_option Num NaN (unsigned_literal t)
  end.

(** [Number(v)] *)
Definition ToNumber (v : jsval) : number :=
  match v with
  | JUndefined => NaN
  | JNull => Num 0
  | JBool true => Num 1
  | JBool false => Num 0
  | JNum n => n
  | JStr s => StringToNumber s
  | JArr _ | JObj _ => StringToNumber (ToString v)
  end.

(** [s.toLowerCase()], on the letters A to Z. *)
Definition lower_char (c : ascii) : ascii :=
  let n := nat_of_ascii c in
  if ((65 <=? n)%nat && (n <=? 90)%nat)%bool then ascii_of_nat (n + 32) else c.

Fixpoint toLowerCase (s : string) : string :=
  match s with
  | EmptyString => EmptyString
  | String c s' => String (lower_char c) (toLowerCase s')
  end.

(** [o.k] on a parsed object: undefined when the key is missing. *)
Definition obj_get (o : gmap string jsval) (k : string) : jsval :=
  default JUndefined (o !! k).

(** [Array.prototype.find] *)
Fixpoint array_find {A} (p : A → bool) (l : list A) : option A :=
  match l with
  | [] => None
  | x :: l' => if p x then Some x else array_find p l'
  end.

(** [Array.prototype.findIndex], counting from [i]; -1 when nothing
    satisfies [p]. *)
Fixpoint findIndex_from {A} (p : A → bool) (l : list A) (i : Z) : Z :=
  match l with
  | [] => -1
  | x :: l' => if p x then i else findIndex_from p l' (i + 1)
  end.

Definition findIndex {A} (p : A → bool) (l : list A) : Z :=
  findIndex_from p l 0.

(** [arr.splice(i, 1)] for an index in range. *)
Definition splice1 {A} (i : Z) (l : list A) : list A :=
  delete (Z.to_nat i) l.

(** [arr[i] = x] for an index in range. *)
Definition assign {A} (i : Z) (x : A) (l : list A) : list A :=
  <[Z.to_nat i := x]> l.

(** [arr[i]] *)
Definition at_index {A} (i : Z) (l : list A) : option A :=
  l !! Z.to_nat i.

(** ** Data model *)

Record User : Type := mkUser {
  user_id : string;
  user_name : jsval;
  user_email : jsval;
  user_createdAt : Z          (* a Date, as milliseconds since the epoch *)
}.

Record Product : Type := mkProduct {
  product_id : string;
  product_name : jsval;
  product_price : number;
  product_category : jsval;
  product_stock : number
}.

(** The simulated database: the two module-level arrays. *)
Record Store : Type := mkStore {
  users : list User;
  products : list Product
}.

Definition set_users (l : list User) (st : Store) : Store :=
  {| users := l; products := products st |}.

Definition set_products (l : list Product) (st : Store) : Store :=
  {| users := users st; products := l |}.

(** The seed rows; [t1] and [t2] are the two [new Date()] readings taken
    when the module is loaded. *)
Definition seed_users (t1 t2 : Z) : list User :=
  [ mkUser "1" (JStr "John Doe") (JStr "john@example.com") t1;
    mkUser "2" (JStr "Jane Smith") (JStr "jane@example.com") t2 ].

Definition seed_products : list Product :=
  [ mkProduct "1" (JStr "Laptop") (Num 3500) (JStr "Electronics") (Num 10);
    mkProduct "2" (JStr "Gaming Mouse") (Num 150) (JStr "Peripherals") (Num 50);
    mkProduct "3" (JStr "Mechanical Keyboard") (Num 400) (JStr "Peripherals") (Num 30) ].

Definition initial_store (t1 t2 : Z) : Store :=
  {| users := seed_users t1 t2; products := seed_products |}.

(** ** Requests, responses, errors *)

Inductive Method : Type :=
  | GET | HEAD | POST | PUT | DELETE | PATCH | OPTIONS.

Global Instance Method_eq_dec : EqDecision Method.
Proof. solve_decision. Defined.

(** What the framework hands to a handler: the parsed request.  [path] is
    the path name the router matches on, [originalUrl] the request target
    as received, [params] the route parameters filled in by the router. *)
Record Request : Type := mkRequest {
  method : Method;
  originalUrl : string;
  path : string;
  params : gmap string string;
  query : gmap string jsval;
  body : gmap string jsval
}.

Definition with_params (ps : gmap string string) (req : Request) : Request :=
  {| method := method req; originalUrl := originalUrl req; path := path req;
     params := ps; query := query req; body := body req |}.

(** What the handlers read from the process: [process.env.NODE_ENV] and
    the clock read by [new Date()]. *)
Record Process : Type := mkProcess {
  NODE_ENV : option string;
  now : Z
}.

(** An error object: [AppError] sets [statusCode]; an error raised by the
    run time (a TypeError) has none. *)
Record Error : Type := mkError {
  message : string;
  statusCode : option Z
}.

Definition AppError (msg : string) (code : Z) : Error :=
  {| message := msg; statusCode := Some code |}.

Definition TypeError (msg : string) : Error :=
  {| message := msg; statusCode := None |}.

(** The values placed in a response object before [res.json] serialises
    it. *)
Inductive BodyVal : Type :=
  | VBool (b : bool)
  | VNum (z : Z)
  | VStr (s : string)
  | VUser (u : User)
  | VUsers (l : list User)
  | VProduct (p : Product)
  | VProducts (l : list Product)
  | VObj (fields : list (string * BodyVal))
  | VStack (e : Error)          (* [err.stack] *)
  | VUptime                     (* [process.uptime()] *)
  | VISOString (t : Z).         (* [new Date().toISOString()] *)

Record Response : Type := mkResponse {
  status : Z;
  json : list (string * BodyVal)
}.

(** A handler ends by sending a response or by calling [next(err)]; an
    exception thrown inside a handler is caught by the framework and passed
    to [next] as well. *)
Inductive Outcome : Type :=
  | Sent (r : Response)
  | Next (e : Error).

Definition Handler : Type := Process → Request → Store → Store * Outcome.

(** [x.id === req.params.id] *)
Definition id_is_param (req : Request) (i : string) : bool :=
  match params req !! "id" with
  | Some p => String.eqb i p
  | None => false
  end.

(** [String(arr.length + 1)] *)
Definition next_id {A} (l : list A) : string :=
  NumberToString (Num (Z.of_nat (length l) + 1)).

(** ** User routes *)

(** GET /api/users (lines 65-71) *)
Definition listUsers : Handler := fun _ _ st =>
  (st, Sent {| status := 200;
               json := [("success", VBool true);
                        ("count", VNum (Z.of_nat (length (users st))));
                        ("data", VUsers (users st))] |}).

(** GET /api/users/:id (lines 74-85) *)
Definition getUser : Handler := fun _ req st =>
  match array_find (fun u => id_is_param req (user_id u)) (users st) with
  | None => (st, Next (AppError "User not found" 404))
  | Some user =>
      (st, Sent {| status := 200;
                   json := [("success", VBool true); ("data", VUser user)] |})
  end.

(** POST /api/users (lines 88-109) *)
Definition createUser : Handler := fun proc req st =>
  let name := obj_get (body req) "name" in
  let email := obj_get (body req) "email" in
  if negb (ToBoolean name) || negb (ToBoolean email) then
    (st, Next (AppError "Name and email are required" 400))
  else
    let newUser :=
      {| user_id := next_id (users st);
         user_name := name;
         user_email := email;
         user_createdAt := now proc |} in
    (set_users (users st ++ [newUser]) st,
     Sent {| status := 201;
             json := [("success", VBool true);
                      ("message", VStr "User created successfully");
                      ("data", VUser newUser)] |}).

(** PUT /api/users/:id (lines 112-132) *)
Definition updateUser : Handler := fun _ req st =>
  let userIndex := findIndex (fun u => id_is_param req (user_id u)) (users st) in
  if userIndex =? -1 then
    (st, Next (AppError "User not found" 404))
  else
    let name := obj_get (body req) "name" in
    let email := obj_get (body req) "email" in
    match at_index userIndex (users st) with
    | None =>
        (st, Next (TypeError "Cannot read properties of undefined (reading 'name')"))
    | Some old =>
        let updated :=
          {| user_id := user_id old;
             user_name := or_else name (user_name old);
             user_email := or_else email (user_email old);
             user_createdAt := user_createdAt old |} in
        (set_users (assign userIndex updated (users st)) st,
         Sent {| status := 200;
                 json := [("success", VBool true);
                          ("message", VStr "User updated successfully");
                          ("data", VUser updated)] |})
    end.

(** DELETE /api/users/:id (lines 135-148) *)
Definition deleteUser : Handler := fun _ req st =>
  let userIndex := findIndex (fun u => id_is_param req (user_id u)) (users st) in
  if userIndex =? -1 then
    (st, Next (AppError "User not found" 404))
  else
    (set_users (splice1 userIndex (users st)) st,
     Sent {| status := 200;
             json := [("success", VBool true);
                      ("message", VStr "User deleted successfully")] |}).

(** ** Product routes *)

(** [p.category.toLowerCase()]: a TypeError unless the category is a
    string. *)
Definition category_toLowerCase (c : jsval) : Error + string :=
  match c with
  | JStr s => inr (toLowerCase s)
  | JUndefined =>
      inl (TypeError "Cannot read properties of undefined (reading 'toLowerCase')")
  | JNull =>
      inl (TypeError "Cannot read properties of null (reading 'toLowerCase')")
  | _ => inl (TypeError "p.category.toLowerCase is not a function")
  end.

(** [Array.prototype.filter] with a callback that may throw: the first
    exception, in element order, ends the call. *)
Fixpoint filter_throwing {A} (p : A → Error + bool) (l : list A) : Error + list A :=
  match l with
  | [] => inr []
  | x :: l' =>
      match p x with
      | inl e => inl e
      | inr b =>
          match filter_throwing p l' with
          | inl e => inl e
          | inr r => inr (if b then x :: r else r)
          end
      end
  end.

Definition category_matches (category : jsval) (p : Product) : Error + bool :=
  match category_toLowerCase (product_category p) with
  | inl e => inl e
  | inr c => inr (String.eqb c (toLowerCase (ToString category)))
  end.

(** GET /api/products (lines 153-177) *)
Definition listProducts : Handler := fun _ req st =>
  let category := obj_get (query req) "category" in
  let minPrice := obj_get (query req) "minPrice" in
  let maxPrice := obj_get (query req) "maxPrice" in
  let filteredProducts := inr (products st) in
  let filteredProducts :=
    if ToBoolean category then
      match filteredProducts with
      | inl e => inl e
      | inr l => filter_throwing (category_matches category) l
      end
    else filteredProducts in
  let filteredProducts :=
    if ToBoolean minPrice then
      match filteredProducts with
      | inl e => inl e
      | inr l => inr (List.filter (fun p => num_ge (product_price p) (ToNumber minPrice)) l)
      end
    else filteredProducts in
  let filteredProducts :=
    if ToBoolean maxPrice then
      match filteredProducts with
      | inl e => inl e
      | inr l => inr (List.filter (fun p => num_le (product_price p) (ToNumber maxPrice)) l)
      end
    else filteredProducts in
  match filteredProducts with
  | inl e => (st, Next e)
  | inr l =>
      (st, Sent {| status := 200;
                   json := [("success", VBool true);
                            ("count", VNum (Z.of_nat (length l)));
                            ("data", VProducts l)] |})
  end.

(** GET /api/products/:id (lines 180-191) *)
Definition getProduct : Handler := fun _ req st =>
  match array_find (fun p => id_is_param req (product_id p)) (products st) with
  | None => (st, Next (AppError "Product not found" 404))
  | Some product =>
      (st, Sent {| status := 200;
                   json := [("success", VBool true); ("data", VProduct product)] |})
  end.

(** POST /api/products (lines 194-216) *)
Definition createProduct : Handler := fun _ req st =>
  let name := obj_get (body req) "name" in
  let price := obj_get (body req) "price" in
  let category := obj_get (body req) "category" in
  let stock := obj_get (body req) "stock" in
  if negb (ToBoolean name) || negb (ToBoolean price)
     || negb (ToBoolean category) || is_undefined stock then
    (st, Next (AppError "All fields are required" 400))
  else
    let newProduct :=
      {| product_id := next_id (products st);
         product_name := name;
         product_price := ToNumber price;
         product_category := category;
         product_stock := ToNumber stock |} in
    (set_products (products st ++ [newProduct]) st,
     Sent {| status := 201;
             json := [("success", VBool true);
                      ("message", VStr "Product created successfully");
                      ("data", VProduct newProduct)] |}).

(** PUT /api/products/:id (lines 219-241) *)
Definition updateProduct : Handler := fun _ req st =>
  let productIndex := findIndex (fun p => id_is_param req (product_id p)) (products st) in
  if productIndex =? -1 then
    (st, Next (AppError "Product not found" 404))
  else
    let name := obj_get (body req) "name" in
    let price := obj_get (body req) "price" in
    let category := obj_get (body req) "category" in
    let stock := obj_get (body req) "stock" in
    match at_index productIndex (products st) with
    | None =>
        (st, Next (TypeError "Cannot read properties of undefined (reading 'name')"))
    | Some old =>
        let updated :=
          {| product_id := product_id old;
             product_name := or_else name (product_name old);
             product_price :=
               if negb (is_undefined price) then ToNumber price else product_price old;
             product_category := or_else category (product_category old);
             product_stock :=
               if negb (is_undefined stock) then ToNumber stock else product_stock old |} in
        (set_products (assign productIndex updated (products st)) st,
         Sent {| status := 200;
                 json := [("success", VBool true);
                          ("message", VStr "Product updated successfully");
                          ("data", VProduct updated)] |})
    end.

(** DELETE /api/products/:id (lines 244-257) *)
Definition deleteProduct : Handler := fun _ req st =>
  let productIndex := findIndex (fun p => id_is_param req (product_id p)) (products st) in
  if productIndex =? -1 then
    (st, Next (AppError "Product not found" 404))
  else
    (set_products (splice1 productIndex (products st)) st,
     Sent {| status := 200;
             json := [("success", VBool true);
                      ("message", VStr "Product deleted successfully")] |}).

(** ** General routes *)

(** GET / (lines 262-271) *)
Definition root : Handler := fun _ _ st =>
  (st, Sent {| status := 200;
               json := [("message", VStr "RESTful API with Node.js + TypeScript");
                        ("version", VStr "1.0.0");
                        ("endpoints", VObj [("users", VStr "/api/users");
                                            ("products", VStr "/api/products")])] |}).

(** GET /health (lines 274-280) *)
Definition health : Handler := fun proc _ st =>
  (st, Sent {| status := 200;
               json := [("status", VStr "OK");
                        ("uptime", VUptime);
                        ("timestamp", VISOString (now proc))] |}).

(** The 404 route, [app.use('*', ...)] (lines 283-289). *)
Definition notFound (req : Request) : Response :=
  {| status := 404;
     json := [("success", VBool false);
              ("error", VStr "Route not found");
              ("path", VStr (originalUrl req))] |}.

(** The global error handler (lines 292-302). *)
Definition errorHandler (proc : Process) (err : Error) : Response :=
  let statusCode :=
    match statusCode err with
    | Some c => if c =? 0 then 500 else c
    | None => 500
    end in
  let message :=
    if String.eqb (message err) "" then "Internal server error" else message err in
  {| status := statusCode;
     json := [("success", VBool false);
              ("error", VStr message);
              ("status", VNum statusCode)]
             ++ (if bool_decide (NODE_ENV proc = Some "development")
                 then [("stack", VStack err)]
                 else []) |}.

(** ** The router *)

(** A route path is a list of segments: a literal, or a named parameter
    [:name]. *)
Inductive Seg : Type :=
  | Lit (s : string)
  | Param (name : string).

Fixpoint split_slash (cur : string) (s : string) : list string :=
  match s with
  | EmptyString => [String.rev cur]
  | String c s' =>
      if Ascii.eqb c "/" then String.rev cur :: split_slash "" s'
      else split_slash (String c cur) s'
  end.

Definition drop_trailing_slash (segs : list string) : list string :=
  match reverse segs with
  | "" :: r => reverse r
  | _ => segs
  end.

(** The segments of a path name: it starts with a slash (or is empty) and
    one trailing slash is ignored, as the framework's default (non-strict)
    routing does. *)
Definition segments (p : string) : option (list string) :=
  match split_slash "" p with
  | "" :: r => Some (drop_trailing_slash r)
  | _ => None
  end.

(** Literals match without regard to case (the framework's default); a
    parameter takes one non-empty segment. *)
Fixpoint match_segs (pat : list Seg) (segs : list string)
    (acc : gmap string string) : option (gmap string string) :=
  match pat, segs with
  | [], [] => Some acc
  | Lit s :: pat', x :: segs' =>
      if String.eqb (toLowerCase x) (toLowerCase s) then match_segs pat' segs' acc
      else None
  | Param k :: pat', x :: segs' =>
      if String.eqb x "" then None else match_segs pat' segs' (<[k := x]> acc)
  | _, _ => None
  end.

Definition match_path (pat : list Seg) (p : string) : option (gmap string string) :=
  match segments p with
  | Some segs => match_segs pat segs ∅
  | None => None
  end.

(** A route registered for GET also answers HEAD. *)
Definition handles_method (route_method req_method : Method) : bool :=
  bool_decide (route_method = req_method)
  || (bool_decide (req_method = HEAD) && bool_decide (route_method = GET)).

Record Route : Type := mkRoute {
  route_method : Method;
  route_path : list Seg;
  route_handler : Handler
}.

(** The routes, in registration order. *)
Definition routes : list Route :=
  [ mkRoute GET    [Lit "api"; Lit "users"] listUsers;
    mkRoute GET    [Lit "api"; Lit "users"; Param "id"] getUser;
    mkRoute POST   [Lit "api"; Lit "users"] createUser;
    mkRoute PUT    [Lit "api"; Lit "users"; Param "id"] updateUser;
    mkRoute DELETE [Lit "api"; Lit "users"; Param "id"] deleteUser;
    mkRoute GET    [Lit "api"; Lit "products"] listProducts;
    mkRoute GET    [Lit "api"; Lit "products"; Param "id"] getProduct;
    mkRoute POST   [Lit "api"; Lit "products"] createProduct;
    mkRoute PUT    [Lit "api"; Lit "products"; Param "id"] updateProduct;
    mkRoute DELETE [Lit "api"; Lit "products"; Param "id"] deleteProduct;
    mkRoute GET    [] root;
    mkRoute GET    [Lit "health"] health ].

(** Does route [r] take request [req]?  If so, with which parameters. *)
Definition route_match (req : Request) (r : Route) : option (gmap string string) :=
  if handles_method (route_method r) (method req) then match_path (route_path r) (path req)
  else None.

(** The first route, in registration order, that takes the request. *)
Fixpoint dispatch (rs : list Route) (req : Request) : option (Handler * Request) :=
  match rs with
  | [] => None
  | r :: rs' =>
      match route_match req r with
      | Some ps => Some (route_handler r, with_params ps req)
      | None => dispatch rs' req
      end
  end.

(** One request through the stack of routes.  The middlewares registered
    ahead of it (lines 45-49: security headers, CORS, logging, body parsers)
    belong to the framework; a [Request] is what they pass on.  The matched
    handler answers, or its error goes to [errorHandler]; a request no route
    takes falls to the 404 route. *)
Definition app (proc : Process) (req : Request) (st : Store) : Store * Response :=
  match dispatch routes req with
  | Some (h, req') =>
      match h proc req' st with
      | (st', Sent r) => (st', r)
      | (st', Next e) => (st', errorHandler proc e)
      end
  | None => (st, notFound req)
  end.

(** ** Reachable stores *)

(** [steps allowed st st']: [st'] is reached from [st] by a sequence of
    requests through [app], each of them satisfying [allowed]. *)
Inductive steps (allowed : Request → Prop) : Store → Store → Prop :=
  | steps_refl st : steps allowed st st
  | steps_step st st' proc req :
      steps allowed st st' → allowed req →
      steps allowed st (fst (app proc req st')).

Definition any_request (req : Request) : Prop := True.
Definition not_delete (req : Request) : Prop := method req ≠ DELETE.

Definition reachable (allowed : Request → Prop) (st : Store) : Prop :=
  ∃ t1 t2, steps allowed (initial_store t1 t2) st.

(** The ids a length-based scheme hands out to the first [n] entities. *)
Definition ids_upto (n : nat) : list string :=
  (fun k => NumberToString (Num (Z.of_nat k))) <$> seq 1 n.

(** The ids of a collection are exactly "1", ..., "n", in order. *)
Definition sequential_ids (st : Store) : Prop :=
  user_id <$> users st = ids_upto (length (users st)) ∧
  product_id <$> products st = ids_upto (length (products st)).

(** No collection got shorter. *)
Definition grows (st st' : Store) : Prop :=
  (length (users st) ≤ length (users st'))%nat ∧
  (length (products st) ≤ length (products st'))%nat.

(** A handler that keeps the ids sequential and shortens no collection. *)
Definition keeps_sequential (h : Handler) : Prop :=
  ∀ proc req st,
    sequential_ids st →
    sequential_ids (fst (h proc req st)) ∧ grows st (fst (h proc req st)).



(** ** Payload validation *)

(** The payloads POST /api/users lets through: the negation of its
    [!name || !email] test. *)
Definition user_payload_ok (req : Request) : bool :=
  ToBoolean (obj_get (body req) "name") && ToBoolean (obj_get (body req) "email").

(** The payloads POST /api/products lets through: the negation of its
    [!name || !price || !category || stock === undefined] test. *)
Definition product_payload_ok (req : Request) : bool :=
  ToBoolean (obj_get (body req) "name") && ToBoolean (obj_get (body req) "price")
  && ToBoolean (obj_get (body req) "category")
  && negb (is_undefined (obj_get (body req) "stock")).

(** Unfold a handler down to its branches. *)
Ltac handler_unfold h :=
  unfold h, set_users, set_products, assign, splice1, at_index; simpl.

(** ** The product filter, as the spec words it *)




(** ** Sample requests *)

(** A request whose target has no query string. *)
Definition request (m : Method) (url : string) (b : list (string * jsval)) : Request :=
  {| method := m; originalUrl := url; path := url; params := ∅;
     query := ∅; body := list_to_map b |}.

(** The process outside development mode, with the clock at [t]. *)
Definition production (t : Z) : Process := {| NODE_ENV := None; now := t |}.
Definition development (t : Z) : Process :=
  {| NODE_ENV := Some "development"; now := t |}.

Definition jane : User := mkUser "2" (JStr "Jane Smith") (JStr "jane@example.com") 0.

Definition post_user_A : Request :=
  request POST "/api/users" [("name", JStr "A"); ("email", JStr "a@x.com")].

(** The seeded store after DELETE /api/users/1. *)
Definition store_after_delete_1 : Store :=
  fst (app (production 5) (request DELETE "/api/users/1" []) (initial_store 0 0)).

(** ... and then POST /api/users {name: "A", email: "a@x.com"}. *)
Definition store_after_delete_1_post : Store :=
  fst (app (production 5) post_user_A store_after_delete_1).

Definition laptop : Product :=
  mkProduct "1" (JStr "Laptop") (Num 3500) (JStr "Electronics") (Num 10).






(** Enumerate the routes of the table. *)
Ltac each_route H :=
  unfold routes in H;
  repeat (apply elem_of_cons in H as [->|H]);
  [..|by apply elem_of_nil in H].

(** Split the cases of a route's effect on the store. *)
Ltac effect_cases H :=
  repeat match type of H with
         | _ ∨ _ => destruct H as [H|H]
         | ∃ _, _ => let x := fresh "x" in destruct H as [x H]
         end.

(** ** Path segments *)


(** * Properties *)

(** ** Arrays: [find], [findIndex], [splice], indexed assignment *)

Section Arrays.
Context {A : Type} (p : A → bool).

Lemma array_find_None (l : list A) :
  array_find p l = None ↔ ∀ x, x ∈ l → p x = false.
Proof.
  induction l as [|a l IH]; simpl.
  - split; [intros _ x Hx; inversion Hx | done].
  - destruct (p a) eqn:Hpa.
    + split; [done|]. intros H. specialize (H a (list_elem_of_here _ _)). congruence.
    + rewrite IH. split.
      * intros H x Hx. apply elem_of_cons in Hx as [->|Hx]; auto.
      * intros H x Hx. apply H. by apply list_elem_of_further.
Qed.

Lemma array_find_Some (l : list A) (x : A) :
  array_find p l = Some x →
  ∃ k : nat, l !! k = Some x ∧ p x = true ∧
             ∀ j y, (j < k)%nat → l !! j = Some y → p y = false.
Proof.
  induction l as [|a l IH]; simpl; [done|].
  destruct (p a) eqn:Hpa.
  - intros [= ->]. exists 0%nat. repeat split; auto. intros j y Hj. lia.
  - intros Hf. destruct (IH Hf) as (k & Hk & Hpx & Hlt).
    exists (S k). repeat split; auto.
    intros [|j] y Hj Hy; simpl in Hy.
    + congruence.
    + apply (Hlt j); [lia | done].
Qed.

Lemma array_find_first (l : list A) (k : nat) (x : A) :
  l !! k = Some x → p x = true →
  (∀ j y, (j < k)%nat → l !! j = Some y → p y = false) →
  array_find p l = Some x.
Proof.
  revert k. induction l as [|a l IH]; intros k Hk Hpx Hlt; [done|].
  destruct k as [|k]; simpl in *.
  - injection Hk as ->. by rewrite Hpx.
  - rewrite (Hlt 0%nat a) by (done || lia).
    apply (IH k); auto. intros j y Hj Hy. apply (Hlt (S j)); [lia | done].
Qed.

Lemma findIndex_from_None (l : list A) (i : Z) :
  array_find p l = None → findIndex_from p l i = -1.
Proof.
  revert i. induction l as [|a l IH]; intros i; simpl; [done|].
  destruct (p a); [done | auto].
Qed.

Lemma findIndex_from_Some (l : list A) (i : Z) (x : A) (k : nat) :
  l !! k = Some x → p x = true →
  (∀ j y, (j < k)%nat → l !! j = Some y → p y = false) →
  findIndex_from p l i = i + Z.of_nat k.
Proof.
  revert i k. induction l as [|a l IH]; intros i k Hk Hpx Hlt; [done|].
  destruct k as [|k]; simpl in *.
  - injection Hk as ->. rewrite Hpx. lia.
  - rewrite (Hlt 0%nat a) by (done || lia).
    rewrite (IH (i + 1) k); auto; [lia|].
    intros j y Hj Hy. apply (Hlt (S j)); [lia | done].
Qed.

Lemma findIndex_None (l : list A) :
  array_find p l = None → findIndex p l = -1.
Proof. apply findIndex_from_None. Qed.

Lemma findIndex_Some (l : list A) (x : A) :
  array_find p l = Some x →
  ∃ k : nat, findIndex p l = Z.of_nat k ∧ l !! k = Some x ∧ p x = true ∧
             ∀ j y, (j < k)%nat → l !! j = Some y → p y = false.
Proof.
  intros Hf. destruct (array_find_Some l x Hf) as (k & Hk & Hpx & Hlt).
  exists k. repeat split; auto.
  unfold findIndex. by rewrite (findIndex_from_Some l 0 x k).
Qed.

(** [findIndex] misses exactly when [find] does. *)
Lemma findIndex_minus_one (l : list A) :
  findIndex p l = -1 ↔ array_find p l = None.
Proof.
  split; [|apply findIndex_None].
  destruct (array_find p l) as [x|] eqn:Hf; [|done].
  destruct (findIndex_Some l x Hf) as (k & -> & _). lia.
Qed.

Lemma array_find_app_fresh (l : list A) (e : A) :
  (∀ x, x ∈ l → p x = false) → p e = true → array_find p (l ++ [e]) = Some e.
Proof.
  intros Hl He. apply (array_find_first _ (length l)).
  - by rewrite lookup_app_r, Nat.sub_diag.
  - done.
  - intros j y Hj Hy. rewrite lookup_app_l in Hy by done.
    apply Hl. by eapply list_elem_of_lookup_2.
Qed.

Lemma array_find_delete_only (l : list A) (k : nat) :
  (∀ j y, j ≠ k → l !! j = Some y → p y = false) →
  array_find p (delete k l) = None.
Proof.
  intros Hothers. apply array_find_None. intros x Hx.
  apply list_elem_of_lookup in Hx as [j Hj].
  destruct (decide (j < k)%nat) as [Hlt|Hge].
  - rewrite list_lookup_delete_lt in Hj by done. apply (Hothers j); [lia | done].
  - rewrite list_lookup_delete_ge in Hj by lia. apply (Hothers (S j)); [lia | done].
Qed.
End Arrays.

(** ** The length-based id scheme *)

Lemma NumberToString_Num_inj (a b : Z) :
  NumberToString (Num a) = NumberToString (Num b) → a = b.
Proof. simpl. apply (inj pretty). Qed.

Lemma next_id_eq {A} (l : list A) :
  next_id l = NumberToString (Num (Z.of_nat (S (length l)))).
Proof. unfold next_id. do 2 f_equal. lia. Qed.

Lemma ids_upto_snoc (n : nat) :
  ids_upto (S n) = ids_upto n ++ [NumberToString (Num (Z.of_nat (S n)))].
Proof. unfold ids_upto. by rewrite seq_S, fmap_app. Qed.

Lemma elem_of_ids_upto (i : string) (n : nat) :
  i ∈ ids_upto n ↔ ∃ k : nat, (1 ≤ k ≤ n)%nat ∧ i = NumberToString (Num (Z.of_nat k)).
Proof.
  unfold ids_upto. rewrite list_elem_of_fmap. split.
  - intros (k & -> & Hk). apply elem_of_seq in Hk. exists k. split; [lia | done].
  - intros (k & Hk & ->). exists k. split; [done|]. apply elem_of_seq. lia.
Qed.

Lemma ids_upto_NoDup (n : nat) : NoDup (ids_upto n).
Proof.
  unfold ids_upto. apply NoDup_fmap_2; [|apply NoDup_seq].
  intros a b Hab. apply NumberToString_Num_inj in Hab. lia.
Qed.

(** The id handed out at length [m] is not among the first [n] ids when
    [n <= m]. *)
Lemma next_id_not_in_ids_upto {A} (l : list A) (n : nat) :
  (n ≤ length l)%nat → next_id l ∉ ids_upto n.
Proof.
  intros Hn Hin. apply elem_of_ids_upto in Hin as (k & Hk & Heq).
  rewrite next_id_eq in Heq. apply NumberToString_Num_inj in Heq. lia.
Qed.


(** ** Absent fields *)

Lemma obj_get_absent (o : gmap string jsval) (k : string) :
  o !! k = None → obj_get o k = JUndefined.
Proof. unfold obj_get. by intros ->. Qed.


(** ** Route parameters *)

Lemma id_is_param_true (req : Request) (i j : string) :
  params req !! "id" = Some i → id_is_param req j = true ↔ j = i.
Proof.
  intros Hp. unfold id_is_param. rewrite Hp. apply String.eqb_eq.
Qed.

Lemma id_is_param_false (req : Request) (i j : string) :
  params req !! "id" = Some i → id_is_param req j = false ↔ j ≠ i.
Proof.
  intros Hp. unfold id_is_param. rewrite Hp. apply String.eqb_neq.
Qed.

(** In a list whose keys are pairwise distinct, only one position carries a
    given key. *)
Lemma NoDup_fmap_lookup_ne {A K} (f : A → K) (l : list A) (j k : nat) (x y : A) :
  NoDup (f <$> l) → l !! j = Some x → l !! k = Some y → j ≠ k → f x ≠ f y.
Proof.
  intros Hnd Hj Hk Hne Heq. apply Hne.
  apply (NoDup_lookup (f <$> l) j k (f x)); [done| |].
  - by rewrite list_lookup_fmap, Hj.
  - by rewrite list_lookup_fmap, Hk, Heq.
Qed.

(** ** Handler equations *)

Lemma getUser_found (proc : Process) (req : Request) (st : Store) (u : User) :
  array_find (fun u => id_is_param req (user_id u)) (users st) = Some u →
  getUser proc req st =
    (st, Sent {| status := 200;
                 json := [("success", VBool true); ("data", VUser u)] |}).
Proof. intros H. unfold getUser. by rewrite H. Qed.

Lemma getUser_missing (proc : Process) (req : Request) (st : Store) :
  array_find (fun u => id_is_param req (user_id u)) (users st) = None →
  getUser proc req st = (st, Next (AppError "User not found" 404)).
Proof. intros H. unfold getUser. by rewrite H. Qed.

Lemma getProduct_found (proc : Process) (req : Request) (st : Store) (p : Product) :
  array_find (fun p => id_is_param req (product_id p)) (products st) = Some p →
  getProduct proc req st =
    (st, Sent {| status := 200;
                 json := [("success", VBool true); ("data", VProduct p)] |}).
Proof. intros H. unfold getProduct. by rewrite H. Qed.

Lemma getProduct_missing (proc : Process) (req : Request) (st : Store) :
  array_find (fun p => id_is_param req (product_id p)) (products st) = None →
  getProduct proc req st = (st, Next (AppError "Product not found" 404)).
Proof. intros H. unfold getProduct. by rewrite H. Qed.

Lemma createUser_accepts (proc : Process) (req : Request) (st : Store) :
  user_payload_ok req = true →
  let newUser := mkUser (next_id (users st)) (obj_get (body req) "name")
                        (obj_get (body req) "email") (now proc) in
  createUser proc req st =
    (set_users (users st ++ [newUser]) st,
     Sent {| status := 201;
             json := [("success", VBool true);
                      ("message", VStr "User created successfully");
                      ("data", VUser newUser)] |}).
Proof.
  unfold user_payload_ok, createUser. intros H.
  apply andb_true_iff in H as [Hn He]. by rewrite Hn, He.
Qed.

Lemma createUser_rejects (proc : Process) (req : Request) (st : Store) :
  user_payload_ok req = false →
  createUser proc req st = (st, Next (AppError "Name and email are required" 400)).
Proof.
  unfold user_payload_ok, createUser. intros H.
  destruct (ToBoolean (obj_get (body req) "name")),
           (ToBoolean (obj_get (body req) "email")); simpl in *; done.
Qed.

Lemma createProduct_accepts (proc : Process) (req : Request) (st : Store) :
  product_payload_ok req = true →
  let newProduct :=
    mkProduct (next_id (products st)) (obj_get (body req) "name")
              (ToNumber (obj_get (body req) "price"))
              (obj_get (body req) "category")
              (ToNumber (obj_get (body req) "stock")) in
  createProduct proc req st =
    (set_products (products st ++ [newProduct]) st,
     Sent {| status := 201;
             json := [("success", VBool true);
                      ("message", VStr "Product created successfully");
                      ("data", VProduct newProduct)] |}).
Proof.
  unfold product_payload_ok, createProduct.
  intros H. apply andb_true_iff in H as [H Hs].
  apply andb_true_iff in H as [H Hc]. apply andb_true_iff in H as [Hn Hp].
  rewrite Hn, Hp, Hc. apply negb_true_iff in Hs. by rewrite Hs.
Qed.

Lemma createProduct_rejects (proc : Process) (req : Request) (st : Store) :
  product_payload_ok req = false →
  createProduct proc req st = (st, Next (AppError "All fields are required" 400)).
Proof.
  unfold product_payload_ok, createProduct. intros H.
  destruct (ToBoolean (obj_get (body req) "name")),
           (ToBoolean (obj_get (body req) "price")),
           (ToBoolean (obj_get (body req) "category")),
           (is_undefined (obj_get (body req) "stock")); simpl in *; done.
Qed.

Lemma updateUser_found (proc : Process) (req : Request) (st : Store) (old : User) :
  array_find (fun u => id_is_param req (user_id u)) (users st) = Some old →
  ∃ k : nat,
    users st !! k = Some old ∧
    (∀ j y, (j < k)%nat → users st !! j = Some y → id_is_param req (user_id y) = false) ∧
    let updated :=
      mkUser (user_id old)
             (or_else (obj_get (body req) "name") (user_name old))
             (or_else (obj_get (body req) "email") (user_email old))
             (user_createdAt old) in
    updateUser proc req st =
      (set_users (<[k := updated]> (users st)) st,
       Sent {| status := 200;
               json := [("success", VBool true);
                        ("message", VStr "User updated successfully");
                        ("data", VUser updated)] |}).
Proof.
  intros Hf. destruct (findIndex_Some _ _ _ Hf) as (k & Hidx & Hk & _ & Hlt).
  exists k. split; [done|]. split; [done|].
  handler_unfold updateUser. rewrite Hidx.
  replace (Z.of_nat k =? -1) with false by (symmetry; apply Z.eqb_neq; lia).
  by rewrite Nat2Z.id, Hk.
Qed.

Lemma updateUser_missing (proc : Process) (req : Request) (st : Store) :
  array_find (fun u => id_is_param req (user_id u)) (users st) = None →
  updateUser proc req st = (st, Next (AppError "User not found" 404)).
Proof. intros Hf. unfold updateUser. by rewrite (findIndex_None _ _ Hf). Qed.

Lemma updateProduct_found (proc : Process) (req : Request) (st : Store) (old : Product) :
  array_find (fun p => id_is_param req (product_id p)) (products st) = Some old →
  ∃ k : nat,
    products st !! k = Some old ∧
    (∀ j y, (j < k)%nat → products st !! j = Some y →
            id_is_param req (product_id y) = false) ∧
    let price := obj_get (body req) "price" in
    let stock := obj_get (body req) "stock" in
    let updated :=
      mkProduct (product_id old)
                (or_else (obj_get (body req) "name") (product_name old))
                (if negb (is_undefined price) then ToNumber price else product_price old)
                (or_else (obj_get (body req) "category") (product_category old))
                (if negb (is_undefined stock) then ToNumber stock else product_stock old) in
    updateProduct proc req st =
      (set_products (<[k := updated]> (products st)) st,
       Sent {| status := 200;
               json := [("success", VBool true);
                        ("message", VStr "Product updated successfully");
                        ("data", VProduct updated)] |}).
Proof.
  intros Hf. destruct (findIndex_Some _ _ _ Hf) as (k & Hidx & Hk & _ & Hlt).
  exists k. split; [done|]. split; [done|].
  handler_unfold updateProduct. rewrite Hidx.
  replace (Z.of_nat k =? -1) with false by (symmetry; apply Z.eqb_neq; lia).
  by rewrite Nat2Z.id, Hk.
Qed.

Lemma updateProduct_missing (proc : Process) (req : Request) (st : Store) :
  array_find (fun p => id_is_param req (product_id p)) (products st) = None →
  updateProduct proc req st = (st, Next (AppError "Product not found" 404)).
Proof. intros Hf. unfold updateProduct. by rewrite (findIndex_None _ _ Hf). Qed.

Lemma deleteUser_found (proc : Process) (req : Request) (st : Store) (old : User) :
  array_find (fun u => id_is_param req (user_id u)) (users st) = Some old →
  ∃ k : nat,
    users st !! k = Some old ∧
    deleteUser proc req st =
      (set_users (delete k (users st)) st,
       Sent {| status := 200;
               json := [("success", VBool true);
                        ("message", VStr "User deleted successfully")] |}).
Proof.
  intros Hf. destruct (findIndex_Some _ _ _ Hf) as (k & Hidx & Hk & _ & Hlt).
  exists k. split; [done|].
  handler_unfold deleteUser. rewrite Hidx.
  replace (Z.of_nat k =? -1) with false by (symmetry; apply Z.eqb_neq; lia).
  by rewrite Nat2Z.id.
Qed.

Lemma deleteUser_missing (proc : Process) (req : Request) (st : Store) :
  array_find (fun u => id_is_param req (user_id u)) (users st) = None →
  deleteUser proc req st = (st, Next (AppError "User not found" 404)).
Proof. intros Hf. unfold deleteUser. by rewrite (findIndex_None _ _ Hf). Qed.

Lemma deleteProduct_found (proc : Process) (req : Request) (st : Store) (old : Product) :
  array_find (fun p => id_is_param req (product_id p)) (products st) = Some old →
  ∃ k : nat,
    products st !! k = Some old ∧
    deleteProduct proc req st =
      (set_products (delete k (products st)) st,
       Sent {| status := 200;
               json := [("success", VBool true);
                        ("message", VStr "Product deleted successfully")] |}).
Proof.
  intros Hf. destruct (findIndex_Some _ _ _ Hf) as (k & Hidx & Hk & _ & Hlt).
  exists k. split; [done|].
  handler_unfold deleteProduct. rewrite Hidx.
  replace (Z.of_nat k =? -1) with false by (symmetry; apply Z.eqb_neq; lia).
  by rewrite Nat2Z.id.
Qed.

Lemma deleteProduct_missing (proc : Process) (req : Request) (st : Store) :
  array_find (fun p => id_is_param req (product_id p)) (products st) = None →
  deleteProduct proc req st = (st, Next (AppError "Product not found" 404)).
Proof. intros Hf. unfold deleteProduct. by rewrite (findIndex_None _ _ Hf). Qed.

(** ** Stores reached without a delete *)

Lemma sequential_ids_initial (t1 t2 : Z) : sequential_ids (initial_store t1 t2).
Proof. split; reflexivity. Qed.

Lemma fmap_insert_same_key {A K} (f : A → K) (l : list A) (k : nat) (x y : A) :
  l !! k = Some x → f y = f x → f <$> <[k := y]> l = f <$> l.
Proof.
  intros Hk Hf. rewrite list_fmap_insert, Hf.
  apply list_insert_id. by rewrite list_lookup_fmap, Hk.
Qed.

Lemma grows_refl (st : Store) : grows st st.
Proof. split; lia. Qed.

Lemma grows_trans (a b c : Store) : grows a b → grows b c → grows a c.
Proof. intros [] []. split; lia. Qed.

Lemma keeps_listUsers : keeps_sequential listUsers.
Proof. intros proc req st H. split; [done | apply grows_refl]. Qed.

Lemma keeps_getUser : keeps_sequential getUser.
Proof.
  intros proc req st H. unfold getUser.
  destruct (array_find _ _); (split; [done | apply grows_refl]).
Qed.

Lemma keeps_createUser : keeps_sequential createUser.
Proof.
  intros proc req st [Hu Hp]. unfold createUser.
  destruct (_ || _); simpl; [split; [done | apply grows_refl]|].
  split; [split; simpl; [|done] | split; simpl; [rewrite length_app|]; lia].
  rewrite fmap_app, length_app. simpl.
  replace (length (users st) + 1)%nat with (S (length (users st))) by lia.
  by rewrite ids_upto_snoc, <- Hu, next_id_eq.
Qed.

Lemma keeps_updateUser : keeps_sequential updateUser.
Proof.
  intros proc req st [Hu Hp].
  destruct (array_find (fun u => id_is_param req (user_id u)) (users st)) as [old|] eqn:Hf.
  - destruct (updateUser_found proc req st old Hf) as (k & Hk & _ & ->). simpl.
    split; [split; simpl; [|done] | split; simpl; [rewrite length_insert|]; lia].
    rewrite length_insert. by rewrite (fmap_insert_same_key _ _ _ old).
  - rewrite (updateUser_missing proc req st Hf). split; [done | apply grows_refl].
Qed.

Lemma keeps_listProducts : keeps_sequential listProducts.
Proof.
  intros proc req st H. unfold listProducts.
  repeat (match goal with |- context [if ?b then _ else _] => destruct b end);
    repeat (match goal with |- context [match ?x with inl _ => _ | inr _ => _ end] =>
                              destruct x end);
    (split; [done | apply grows_refl]).
Qed.

Lemma keeps_getProduct : keeps_sequential getProduct.
Proof.
  intros proc req st H. unfold getProduct.
  destruct (array_find _ _); (split; [done | apply grows_refl]).
Qed.

Lemma keeps_createProduct : keeps_sequential createProduct.
Proof.
  intros proc req st [Hu Hp]. unfold createProduct.
  destruct (_ || _); simpl; [split; [done | apply grows_refl]|].
  split; [split; simpl; [done|] | split; simpl; [|rewrite length_app]; lia].
  rewrite fmap_app, length_app. simpl.
  replace (length (products st) + 1)%nat with (S (length (products st))) by lia.
  by rewrite ids_upto_snoc, <- Hp, next_id_eq.
Qed.

Lemma keeps_updateProduct : keeps_sequential updateProduct.
Proof.
  intros proc req st [Hu Hp].
  destruct (array_find (fun p => id_is_param req (product_id p)) (products st))
    as [old|] eqn:Hf.
  - destruct (updateProduct_found proc req st old Hf) as (k & Hk & _ & ->). simpl.
    split; [split; simpl; [done|] | split; simpl; [|rewrite length_insert]; lia].
    rewrite length_insert. by rewrite (fmap_insert_same_key _ _ _ old).
  - rewrite (updateProduct_missing proc req st Hf). split; [done | apply grows_refl].
Qed.

Lemma keeps_root : keeps_sequential root.
Proof. intros proc req st H. split; [done | apply grows_refl]. Qed.

Lemma keeps_health : keeps_sequential health.
Proof. intros proc req st H. split; [done | apply grows_refl]. Qed.

(** ** Dispatch *)

Lemma dispatch_Some (rs : list Route) (req : Request) (h : Handler) (req' : Request) :
  dispatch rs req = Some (h, req') →
  ∃ r ps, r ∈ rs ∧ route_match req r = Some ps ∧
          h = route_handler r ∧ req' = with_params ps req.
Proof.
  induction rs as [|r rs IH]; simpl; [done|].
  destruct (route_match req r) as [ps|] eqn:Hm.
  - intros [= <- <-]. exists r, ps. split; [apply list_elem_of_here | done].
  - intros H. destruct (IH H) as (r' & ps & Hin & Hrest).
    exists r', ps. split; [by apply list_elem_of_further | done].
Qed.

Lemma dispatch_None (rs : list Route) (req : Request) :
  dispatch rs req = None ↔ ∀ r, r ∈ rs → route_match req r = None.
Proof.
  induction rs as [|r rs IH]; simpl.
  - split; [intros _ r Hr; inversion Hr | done].
  - destruct (route_match req r) as [ps|] eqn:Hm.
    + split; [done|]. intros H. specialize (H r (list_elem_of_here _ _)). congruence.
    + rewrite IH. split.
      * intros H r' Hr'. apply elem_of_cons in Hr' as [->|Hr']; auto.
      * intros H r' Hr'. apply H. by apply list_elem_of_further.
Qed.

Lemma route_match_method (req : Request) (r : Route) (ps : gmap string string) :
  route_match req r = Some ps →
  handles_method (route_method r) (method req) = true.
Proof. unfold route_match. by destruct (handles_method _ _). Qed.

(** Every handler in the table but the two DELETE handlers keeps the ids
    sequential. *)
Lemma routes_keep_sequential (r : Route) :
  r ∈ routes → route_method r ≠ DELETE → keeps_sequential (route_handler r).
Proof.
  intros Hr Hm. each_route Hr; simpl in *; try done;
    auto using keeps_listUsers, keeps_getUser, keeps_createUser, keeps_updateUser,
      keeps_listProducts, keeps_getProduct, keeps_createProduct, keeps_updateProduct,
      keeps_root, keeps_health.
Qed.

Lemma handles_DELETE (m : Method) : handles_method DELETE m = true → m = DELETE.
Proof. by destruct m. Qed.

Lemma app_keeps_sequential (proc : Process) (req : Request) (st : Store) :
  not_delete req → sequential_ids st →
  sequential_ids (fst (app proc req st)) ∧ grows st (fst (app proc req st)).
Proof.
  intros Hnd Hseq. unfold app.
  destruct (dispatch routes req) as [[h req']|] eqn:Hd;
    [|split; [done | apply grows_refl]].
  destruct (dispatch_Some _ _ _ _ Hd) as (r & ps & Hr & Hm & -> & ->).
  assert (route_method r ≠ DELETE) as Hnot.
  { intros Heq. apply route_match_method in Hm. rewrite Heq in Hm.
    by apply handles_DELETE in Hm. }
  pose proof (routes_keep_sequential r Hr Hnot proc (with_params ps req) st Hseq) as Hk.
  by destruct (route_handler r proc (with_params ps req) st) as [st' []].
Qed.

Lemma steps_keep_sequential (st st' : Store) :
  steps not_delete st st' → sequential_ids st →
  sequential_ids st' ∧ grows st st'.
Proof.
  induction 1 as [st | st st' proc req Hsteps IH Hreq]; intros Hseq.
  - split; [done | apply grows_refl].
  - destruct (IH Hseq) as [Hseq' Hgrow].
    destruct (app_keeps_sequential proc req st' Hreq Hseq') as [H1 H2].
    split; [done | by eapply grows_trans].
Qed.

Lemma reachable_sequential (st : Store) :
  reachable not_delete st → sequential_ids st.
Proof.
  intros (t1 & t2 & Hsteps).
  by apply (steps_keep_sequential _ _ Hsteps), sequential_ids_initial.
Qed.

(** With sequential ids, the next id is carried by no entity and the ids
    are pairwise distinct. *)
Lemma sequential_users_fresh (st : Store) :
  sequential_ids st → ∀ u, u ∈ users st → user_id u ≠ next_id (users st).
Proof.
  intros [Hu _] u Hin Heq.
  apply (next_id_not_in_ids_upto (users st) (length (users st))); [done|].
  rewrite <- Hu, <- Heq. by apply list_elem_of_fmap_2.
Qed.

Lemma sequential_products_fresh (st : Store) :
  sequential_ids st → ∀ p, p ∈ products st → product_id p ≠ next_id (products st).
Proof.
  intros [_ Hp] p Hin Heq.
  apply (next_id_not_in_ids_upto (products st) (length (products st))); [done|].
  rewrite <- Hp, <- Heq. by apply list_elem_of_fmap_2.
Qed.

Lemma sequential_NoDup (st : Store) :
  sequential_ids st →
  NoDup (user_id <$> users st) ∧ NoDup (product_id <$> products st).
Proof. intros [-> ->]. split; apply ids_upto_NoDup. Qed.

(** ** What a successful handler did *)

Lemma created_user_is_data (e u : User) (m : string) :
  ("data", VUser e) ∈ [("success", VBool true); ("message", VStr m); ("data", VUser u)] →
  e = u.
Proof.
  intros H. repeat (apply elem_of_cons in H as [H|H]; [by simplify_eq|]).
  by apply elem_of_nil in H.
Qed.

Lemma created_product_is_data (e p : Product) (m : string) :
  ("data", VProduct e)
    ∈ [("success", VBool true); ("message", VStr m); ("data", VProduct p)] →
  e = p.
Proof.
  intros H. repeat (apply elem_of_cons in H as [H|H]; [by simplify_eq|]).
  by apply elem_of_nil in H.
Qed.

(** What a successful POST /api/users did. *)
Lemma createUser_Sent (proc : Process) (req : Request) (st st' : Store) (r : Response) :
  createUser proc req st = (st', Sent r) →
  let newUser := mkUser (next_id (users st)) (obj_get (body req) "name")
                        (obj_get (body req) "email") (now proc) in
  user_payload_ok req = true ∧
  st' = set_users (users st ++ [newUser]) st ∧
  r = {| status := 201;
         json := [("success", VBool true);
                  ("message", VStr "User created successfully");
                  ("data", VUser newUser)] |}.
Proof.
  intros H. destruct (user_payload_ok req) eqn:Hok.
  - rewrite (createUser_accepts proc req st Hok) in H. by simplify_eq.
  - rewrite (createUser_rejects proc req st Hok) in H. done.
Qed.

Lemma createProduct_Sent (proc : Process) (req : Request) (st st' : Store) (r : Response) :
  createProduct proc req st = (st', Sent r) →
  let newProduct :=
    mkProduct (next_id (products st)) (obj_get (body req) "name")
              (ToNumber (obj_get (body req) "price"))
              (obj_get (body req) "category")
              (ToNumber (obj_get (body req) "stock")) in
  product_payload_ok req = true ∧
  st' = set_products (products st ++ [newProduct]) st ∧
  r = {| status := 201;
         json := [("success", VBool true);
                  ("message", VStr "Product created successfully");
                  ("data", VProduct newProduct)] |}.
Proof.
  intros H. destruct (product_payload_ok req) eqn:Hok.
  - rewrite (createProduct_accepts proc req st Hok) in H. by simplify_eq.
  - rewrite (createProduct_rejects proc req st Hok) in H. done.
Qed.

(** What a successful DELETE /api/users/:id did. *)
Lemma deleteUser_Sent (proc : Process) (req : Request) (st st' : Store) (r : Response) :
  deleteUser proc req st = (st', Sent r) →
  ∃ (k : nat) (old : User),
    users st !! k = Some old ∧ id_is_param req (user_id old) = true ∧
    st' = set_users (delete k (users st)) st.
Proof.
  intros H.
  destruct (array_find (fun u => id_is_param req (user_id u)) (users st)) as [old|] eqn:Hf.
  - destruct (array_find_Some _ _ _ Hf) as (_ & _ & Hp & _).
    destruct (deleteUser_found proc req st old Hf) as (k & Hk & Heq).
    rewrite Heq in H. exists k, old. by simplify_eq.
  - by rewrite (deleteUser_missing proc req st Hf) in H.
Qed.

Lemma deleteProduct_Sent (proc : Process) (req : Request) (st st' : Store) (r : Response) :
  deleteProduct proc req st = (st', Sent r) →
  ∃ (k : nat) (old : Product),
    products st !! k = Some old ∧ id_is_param req (product_id old) = true ∧
    st' = set_products (delete k (products st)) st.
Proof.
  intros H.
  destruct (array_find (fun p => id_is_param req (product_id p)) (products st))
    as [old|] eqn:Hf.
  - destruct (array_find_Some _ _ _ Hf) as (_ & _ & Hp & _).
    destruct (deleteProduct_found proc req st old Hf) as (k & Hk & Heq).
    rewrite Heq in H. exists k, old. by simplify_eq.
  - by rewrite (deleteProduct_missing proc req st Hf) in H.
Qed.

(** * The claims *)

(** ** C1: GetByID after Create and after Delete *)

(** C1, as the spec states it, fails on a store reached by a delete followed
    by a create.  From the seeded users, DELETE /api/users/1 leaves Jane
    (id "2") alone; POST /api/users then hands out the id String(1 + 1) = "2"
    again and returns the new entity [e]; GET /api/users/2 answers with Jane,
    not with [e].  And after a then successful DELETE /api/users/2 (which
    removes Jane, the first carrier), GET /api/users/2 answers 200 with [e]
    instead of failing with NotFound. *)
Lemma C1_counterexample :
  let e := mkUser "2" (JStr "A") (JStr "a@x.com") 5 in
  let get_2 := request GET "/api/users/2" [] in
  let delete_2 := request DELETE "/api/users/2" [] in
  reachable any_request store_after_delete_1 ∧
  app (production 5) post_user_A store_after_delete_1 =
    (store_after_delete_1_post,
     {| status := 201;
        json := [("success", VBool true);
                 ("message", VStr "User created successfully");
                 ("data", VUser e)] |}) ∧
  snd (app (production 6) get_2 store_after_delete_1_post) =
    {| status := 200; json := [("success", VBool true); ("data", VUser jane)] |} ∧
  jane ≠ e ∧
  snd (app (production 7) delete_2 store_after_delete_1_post) =
    {| status := 200;
       json := [("success", VBool true);
                ("message", VStr "User deleted successfully")] |} ∧
  snd (app (production 8) get_2
         (fst (app (production 7) delete_2 store_after_delete_1_post))) =
    {| status := 200; json := [("success", VBool true); ("data", VUser e)] |}.
Proof.
  repeat split; try reflexivity; [|discriminate].
  exists 0, 0. unfold store_after_delete_1.
  apply steps_step; [apply steps_refl | exact I].
Qed.

(** C1 (amended): for users and for products alike, after a successful
    Create returning entity [e], GetByID([e.id]) returns exactly [e] provided
    no entity already in the collection carries the id String(length + 1);
    after a successful Delete(id), GetByID(id) fails with NotFound (404)
    provided the ids of the collection were pairwise distinct before the
    delete.  Both provisos hold in every store reached from the seeded one by
    requests none of which is a DELETE. *)
Theorem C1_get_after_create_and_delete
    (proc proc' : Process) (req req' : Request) (st st' : Store) (r : Response) :
  (∀ e : User,
     createUser proc req st = (st', Sent r) →
     ("data", VUser e) ∈ json r →
     (∀ u, u ∈ users st → user_id u ≠ next_id (users st)) →
     params req' !! "id" = Some (user_id e) →
     getUser proc' req' st' =
       (st', Sent {| status := 200;
                     json := [("success", VBool true); ("data", VUser e)] |})) ∧
  (∀ i : string,
     deleteUser proc req st = (st', Sent r) →
     params req !! "id" = Some i →
     NoDup (user_id <$> users st) →
     params req' !! "id" = Some i →
     getUser proc' req' st' = (st', Next (AppError "User not found" 404))) ∧
  (∀ e : Product,
     createProduct proc req st = (st', Sent r) →
     ("data", VProduct e) ∈ json r →
     (∀ p, p ∈ products st → product_id p ≠ next_id (products st)) →
     params req' !! "id" = Some (product_id e) →
     getProduct proc' req' st' =
       (st', Sent {| status := 200;
                     json := [("success", VBool true); ("data", VProduct e)] |})) ∧
  (∀ i : string,
     deleteProduct proc req st = (st', Sent r) →
     params req !! "id" = Some i →
     NoDup (product_id <$> products st) →
     params req' !! "id" = Some i →
     getProduct proc' req' st' = (st', Next (AppError "Product not found" 404))) ∧
  (reachable not_delete st →
     (∀ u, u ∈ users st → user_id u ≠ next_id (users st)) ∧
     NoDup (user_id <$> users st) ∧
     (∀ p, p ∈ products st → product_id p ≠ next_id (products st)) ∧
     NoDup (product_id <$> products st)).
Proof.
  repeat apply conj.
  - intros e Hc Hdata Hfresh Hid.
    destruct (createUser_Sent _ _ _ _ _ Hc) as (_ & -> & ->).
    apply created_user_is_data in Hdata as ->.
    apply getUser_found. simpl in *. apply array_find_app_fresh.
    + intros u Hu. apply (id_is_param_false _ _ _ Hid). by apply Hfresh.
    + by apply (id_is_param_true _ _ _ Hid).
  - intros i Hd Hi Hnd Hi'.
    destruct (deleteUser_Sent _ _ _ _ _ Hd) as (k & old & Hk & Hp & ->).
    apply (id_is_param_true _ _ _ Hi) in Hp.
    apply getUser_missing. simpl. apply array_find_delete_only.
    intros j y Hj Hy. apply (id_is_param_false _ _ _ Hi'). rewrite <- Hp.
    by apply (NoDup_fmap_lookup_ne user_id (users st) j k).
  - intros e Hc Hdata Hfresh Hid.
    destruct (createProduct_Sent _ _ _ _ _ Hc) as (_ & -> & ->).
    apply created_product_is_data in Hdata as ->.
    apply getProduct_found. simpl in *. apply array_find_app_fresh.
    + intros p Hp. apply (id_is_param_false _ _ _ Hid). by apply Hfresh.
    + by apply (id_is_param_true _ _ _ Hid).
  - intros i Hd Hi Hnd Hi'.
    destruct (deleteProduct_Sent _ _ _ _ _ Hd) as (k & old & Hk & Hp & ->).
    apply (id_is_param_true _ _ _ Hi) in Hp.
    apply getProduct_missing. simpl. apply array_find_delete_only.
    intros j y Hj Hy. apply (id_is_param_false _ _ _ Hi'). rewrite <- Hp.
    by apply (NoDup_fmap_lookup_ne product_id (products st) j k).
  - intros Hr. apply reachable_sequential in Hr.
    destruct (sequential_NoDup st Hr).
    auto using sequential_users_fresh, sequential_products_fresh.
Qed.

(** C1 at the seeded store, whose ids are "1" and "2": POST /api/users
    creates the user with id "3", which no seeded user carries, and
    GET /api/users/3 returns it; DELETE /api/users/1 succeeds and
    GET /api/users/1 then fails with NotFound. *)
Lemma C1_get_after_create_and_delete_witness :
  let e := mkUser "3" (JStr "A") (JStr "a@x.com") 5 in
  let created := set_users (seed_users 0 0 ++ [e]) (initial_store 0 0) in
  let get_3 := with_params {["id" := "3"]} (request GET "/api/users/3" []) in
  let delete_1 := with_params {["id" := "1"]} (request DELETE "/api/users/1" []) in
  let get_1 := with_params {["id" := "1"]} (request GET "/api/users/1" []) in
  let deleted := set_users [jane] (initial_store 0 0) in
  getUser (production 6) get_3 created =
    (created, Sent {| status := 200;
                      json := [("success", VBool true); ("data", VUser e)] |}) ∧
  NoDup (user_id <$> users (initial_store 0 0)) ∧
  getUser (production 6) get_1 deleted =
    (deleted, Next (AppError "User not found" 404)).
Proof.
  intros e created get_3 delete_1 get_1 deleted.
  assert (NoDup (user_id <$> users (initial_store 0 0))) as Hnd.
  { apply (proj2 (proj2 (proj2 (proj2
      (C1_get_after_create_and_delete (production 5) (production 6) post_user_A get_3
         (initial_store 0 0) created {| status := 200; json := [] |}))))).
    exists 0, 0. apply steps_refl. }
  split; [|split; [exact Hnd|]].
  - refine (proj1 (C1_get_after_create_and_delete
                     (production 5) (production 6) post_user_A get_3
                     (initial_store 0 0) created
                     {| status := 201;
                        json := [("success", VBool true);
                                 ("message", VStr "User created successfully");
                                 ("data", VUser e)] |}) e _ _ _ _).
    + reflexivity.
    + do 2 apply list_elem_of_further. apply list_elem_of_here.
    + intros u Hu. simpl in Hu.
      repeat (apply elem_of_cons in Hu as [->|Hu]; [discriminate|]).
      by apply elem_of_nil in Hu.
    + reflexivity.
  - refine (proj1 (proj2 (C1_get_after_create_and_delete
                            (production 5) (production 6) delete_1 get_1
                            (initial_store 0 0) deleted
                            {| status := 200;
                               json := [("success", VBool true);
                                        ("message", VStr "User deleted successfully")] |}))
                  "1" _ _ Hnd _); reflexivity.
Defined.

(** ** C2: Create assigns the id String(length + 1) *)




(** ** C3: Update is a shallow merge *)




(** ** C4: Create with a required field absent *)

Lemma dispatch_post_users (req : Request) :
  method req = POST → path req = "/api/users" →
  dispatch routes req = Some (createUser, with_params ∅ req).
Proof.
  intros Hm Hp. unfold dispatch, routes, route_match. simpl.
  rewrite Hm, Hp. reflexivity.
Qed.

Lemma dispatch_post_products (req : Request) :
  method req = POST → path req = "/api/products" →
  dispatch routes req = Some (createProduct, with_params ∅ req).
Proof.
  intros Hm Hp. unfold dispatch, routes, route_match. simpl.
  rewrite Hm, Hp. reflexivity.
Qed.

Lemma user_payload_absent (req : Request) :
  body req !! "name" = None ∨ body req !! "email" = None →
  user_payload_ok req = false.
Proof.
  unfold user_payload_ok.
  intros [H|H]; rewrite (obj_get_absent _ _ H); simpl; [done|].
  by rewrite andb_false_r.
Qed.

Lemma product_payload_absent (req : Request) :
  body req !! "name" = None ∨ body req !! "price" = None ∨
  body req !! "category" = None ∨ body req !! "stock" = None →
  product_payload_ok req = false.
Proof.
  unfold product_payload_ok.
  intros [H|[H|[H|H]]]; rewrite (obj_get_absent _ _ H); simpl;
    rewrite ?andb_false_r; done.
Qed.

(** C4: a create payload in which a required field is absent (name or email
    for a user; name, price, category or stock for a product) makes Create
    hand the fixed 400 error to [next] and leaves the store as it was; through
    the router, POST /api/users and POST /api/products then answer with
    status 400 and that message, the store unchanged. *)
Theorem C4_create_rejects_absent_field (proc : Process) (req : Request) (st : Store) :
  (body req !! "name" = None ∨ body req !! "email" = None →
   let err := AppError "Name and email are required" 400 in
   createUser proc req st = (st, Next err) ∧
   status (errorHandler proc err) = 400 ∧
   ("error", VStr "Name and email are required") ∈ json (errorHandler proc err) ∧
   (method req = POST → path req = "/api/users" →
    app proc req st = (st, errorHandler proc err))) ∧
  (body req !! "name" = None ∨ body req !! "price" = None ∨
   body req !! "category" = None ∨ body req !! "stock" = None →
   let err := AppError "All fields are required" 400 in
   createProduct proc req st = (st, Next err) ∧
   status (errorHandler proc err) = 400 ∧
   ("error", VStr "All fields are required") ∈ json (errorHandler proc err) ∧
   (method req = POST → path req = "/api/products" →
    app proc req st = (st, errorHandler proc err))).
Proof.
  split.
  - intros Habs err. apply user_payload_absent in Habs.
    split; [by apply createUser_rejects|]. split; [reflexivity|].
    split; [apply list_elem_of_further, list_elem_of_here|].
    intros Hm Hp. unfold app. rewrite (dispatch_post_users req Hm Hp).
    by rewrite (createUser_rejects proc (with_params ∅ req) st Habs).
  - intros Habs err. apply product_payload_absent in Habs.
    split; [by apply createProduct_rejects|]. split; [reflexivity|].
    split; [apply list_elem_of_further, list_elem_of_here|].
    intros Hm Hp. unfold app. rewrite (dispatch_post_products req Hm Hp).
    by rewrite (createProduct_rejects proc (with_params ∅ req) st Habs).
Qed.

(** C4 at the seeded store: POST /api/users {name: "A"} lacks the email and
    is answered with status 400, the store unchanged. *)
Lemma C4_create_rejects_absent_field_witness :
  let req := request POST "/api/users" [("name", JStr "A")] in
  body req !! "email" = None ∧
  app (production 5) req (initial_store 0 0) =
    (initial_store 0 0,
     {| status := 400;
        json := [("success", VBool false);
                 ("error", VStr "Name and email are required");
                 ("status", VNum 400)] |}).
Proof.
  intros req. split; [reflexivity|].
  destruct (proj1 (C4_create_rejects_absent_field (production 5) req (initial_store 0 0))
                  (or_intror eq_refl))
    as (_ & _ & _ & Happ).
  exact (Happ eq_refl eq_refl).
Defined.

(** ** C5: listing products with filters *)















(** ** C6: what Product Create requires *)




(** ** C7: the error renderer *)

Lemma filter_throwing_inl (category : jsval) (l : list Product) (e : Error) :
  filter_throwing (category_matches category) l = inl e → statusCode e = None.
Proof.
  induction l as [|p l IH]; simpl; [done|].
  unfold category_matches at 1.
  destruct (product_category p) as [| |b|n|s|elems|fields]; simpl;
    try (by intros [= <-]).
  destruct (filter_throwing _ l) as [e'|r]; [|done].
  intros [= <-]. by apply IH.
Qed.

(** What a handler of the table can end with: a response with status 200 or
    201, or an error whose status code is 400, 404 or missing. *)
Lemma handler_outcomes (r : Route) (proc : Process) (req : Request) (st : Store) :
  r ∈ routes →
  match snd (route_handler r proc req st) with
  | Sent resp => status resp = 200 ∨ status resp = 201
  | Next e => statusCode e = Some 400 ∨ statusCode e = Some 404 ∨ statusCode e = None
  end.
Proof.
  intros Hr. each_route Hr; simpl.
  - auto.
  - unfold getUser. destruct (array_find _ _); simpl; auto.
  - unfold createUser. destruct (_ || _); simpl; auto.
  - unfold updateUser. destruct (_ =? _); simpl; [auto|].
    destruct (at_index _ _); simpl; auto.
  - unfold deleteUser. destruct (_ =? _); simpl; auto.
  - unfold listProducts.
    destruct (ToBoolean (obj_get (query req) "category")).
    + destruct (filter_throwing _ _) as [e|l] eqn:He.
      * apply filter_throwing_inl in He.
        destruct (ToBoolean (obj_get (query req) "minPrice")),
                 (ToBoolean (obj_get (query req) "maxPrice")); simpl; auto.
      * destruct (ToBoolean (obj_get (query req) "minPrice")),
                 (ToBoolean (obj_get (query req) "maxPrice")); simpl; auto.
    + destruct (ToBoolean (obj_get (query req) "minPrice")),
               (ToBoolean (obj_get (query req) "maxPrice")); simpl; auto.
  - unfold getProduct. destruct (array_find _ _); simpl; auto.
  - unfold createProduct. destruct (_ || _); simpl; auto.
  - unfold updateProduct. destruct (_ =? _); simpl; [auto|].
    destruct (at_index _ _); simpl; auto.
  - unfold deleteProduct. destruct (_ =? _); simpl; auto.
  - auto.
  - auto.
Qed.

(** C7, as the spec states it, fails in development mode: with
    NODE_ENV = "development" the body rendered for DELETE /api/users/99 has a
    fourth field, [stack], after success, error and status. *)
Lemma C7_counterexample :
  let req := request DELETE "/api/users/99" [] in
  let err := AppError "User not found" 404 in
  NODE_ENV (development 5) = Some "development" ∧
  deleteUser (development 5) (with_params {["id" := "99"]} req) (initial_store 0 0) =
    (initial_store 0 0, Next err) ∧
  snd (app (development 5) req (initial_store 0 0)) =
    {| status := 404;
       json := [("success", VBool false);
                ("error", VStr "User not found");
                ("status", VNum 404);
                ("stack", VStack err)] |}.
Proof. repeat split; reflexivity. Qed.

(** C7 (amended): every failure a handler signals reaches the client only
    through the error handler, and a handler that answers by itself answers
    200 or 201.  The rendered body consists of success: false, error: the
    message, status: the status code, in this order, followed by a stack
    field when and only when NODE_ENV is "development"; the status code in
    the body equals the HTTP status of the response, which is the error's
    status code, or 500 when the error has none.  The failures handlers
    signal carry 400 or 404, or no status code (an exception thrown by the run
    time). *)
Theorem C7_failures_rendered_by_error_handler (proc : Process) (req : Request)
    (st : Store) :
  (∀ h req',
     dispatch routes req = Some (h, req') →
     match h proc req' st with
     | (st', Next e) =>
         app proc req st = (st', errorHandler proc e) ∧
         (statusCode e = Some 400 ∨ statusCode e = Some 404 ∨ statusCode e = None)
     | (st', Sent r) =>
         app proc req st = (st', r) ∧ (status r = 200 ∨ status r = 201)
     end) ∧
  (∀ e : Error,
     let code := match statusCode e with
                 | Some c => if c =? 0 then 500 else c
                 | None => 500
                 end in
     let msg := if String.eqb (message e) "" then "Internal server error"
                else message e in
     let shape := [("success", VBool false); ("error", VStr msg);
                   ("status", VNum code)] in
     status (errorHandler proc e) = code ∧
     (NODE_ENV proc ≠ Some "development" → json (errorHandler proc e) = shape) ∧
     (NODE_ENV proc = Some "development" →
      json (errorHandler proc e) = shape ++ [("stack", VStack e)]) ∧
     (statusCode e = None → status (errorHandler proc e) = 500) ∧
     (∀ c, statusCode e = Some c → c ≠ 0 → status (errorHandler proc e) = c)).
Proof.
  split.
  - intros h req' Hd. unfold app. rewrite Hd.
    destruct (dispatch_Some _ _ _ _ Hd) as (r & ps & Hr & _ & -> & _).
    pose proof (handler_outcomes r proc req' st Hr) as Hout.
    by destruct (route_handler r proc req' st) as [st' [resp|e]].
  - intros e code msg shape. unfold errorHandler. simpl. fold code msg shape.
    repeat apply conj.
    + done.
    + intros Hdev. by rewrite bool_decide_eq_false_2.
    + intros Hdev. by rewrite bool_decide_eq_true_2.
    + subst code. by intros ->.
    + subst code. intros c -> Hc. by apply Z.eqb_neq in Hc as ->.
Qed.

(** C7 at the seeded store, outside development mode: DELETE /api/users/99
    is routed to the delete handler, whose NotFound error is rendered as
    {success: false, error: "User not found", status: 404} with status 404. *)
Lemma C7_failures_rendered_by_error_handler_witness :
  let req := request DELETE "/api/users/99" [] in
  dispatch routes req = Some (deleteUser, with_params {["id" := "99"]} req) ∧
  app (production 5) req (initial_store 0 0) =
    (initial_store 0 0,
     {| status := 404;
        json := [("success", VBool false);
                 ("error", VStr "User not found");
                 ("status", VNum 404)] |}).
Proof.
  intros req. split; [reflexivity|].
  exact (proj1 (proj1 (C7_failures_rendered_by_error_handler
                         (production 5) req (initial_store 0 0))
                      deleteUser (with_params {["id" := "99"]} req) eq_refl)).
Defined.

(** ** C8: the 404 route *)



(** ** C9: a falsy price is rejected *)




(** ** C10: Update treats an empty string as absent *)










Lemma listProducts_reads (proc : Process) (req : Request) (st : Store) :
  fst (listProducts proc req st) = st.
Proof.
  unfold listProducts.
  repeat (match goal with |- context [if ?b then _ else _] => destruct b end);
    repeat (match goal with
            | |- context [match ?x with inl _ => _ | inr _ => _ end] => destruct x
            end);
    reflexivity.
Qed.







(** * Further properties of the handlers and the router *)

(** ** Safe methods *)

Lemma handles_method_GET_or_HEAD (rm m : Method) :
  m = GET ∨ m = HEAD → handles_method rm m = true → rm = GET ∨ rm = HEAD.
Proof. intros [-> | ->]; destruct rm; simpl; auto; discriminate. Qed.

Lemma getUser_reads (proc : Process) (req : Request) (st : Store) :
  fst (getUser proc req st) = st.
Proof. unfold getUser. by destruct (array_find _ _). Qed.

Lemma getProduct_reads (proc : Process) (req : Request) (st : Store) :
  fst (getProduct proc req st) = st.
Proof. unfold getProduct. by destruct (array_find _ _). Qed.

(** X1: a GET or HEAD request never changes the store, whatever its path,
    query and body, and whether it is answered with a success, an error or
    the 404 of the catch-all. *)
Theorem X1_get_and_head_leave_the_store (proc : Process) (req : Request) (st : Store) :
  method req = GET ∨ method req = HEAD → fst (app proc req st) = st.
Proof.
  intros Hm. unfold app.
  destruct (dispatch routes req) as [[h req']|] eqn:Hd; [|done].
  destruct (dispatch_Some _ _ _ _ Hd) as (r & ps & Hr & Hmatch & -> & _).
  apply route_match_method in Hmatch.
  apply (handles_method_GET_or_HEAD _ _ Hm) in Hmatch.
  assert (fst (route_handler r proc req' st) = st) as Hfst.
  { each_route Hr; simpl in *; try (by destruct Hmatch);
      auto using getUser_reads, getProduct_reads, listProducts_reads. }
  by destruct (route_handler r proc req' st) as [st' []].
Qed.

Lemma X1_get_and_head_leave_the_store_witness :
  fst (app (production 5) (request HEAD "/api/users/2" []) (initial_store 0 0)) =
    initial_store 0 0.
Proof.
  exact (X1_get_and_head_leave_the_store (production 5)
           (request HEAD "/api/users/2" []) (initial_store 0 0) (or_intror eq_refl)).
Defined.

(** ** What DELETE removes *)

(** A successful [find] splits the array around the first hit. *)
Lemma array_find_split {A} (p : A → bool) (l : list A) (x : A) :
  array_find p l = Some x →
  ∃ before after,
    l = before ++ x :: after ∧
    (∀ y, y ∈ before → p y = false) ∧
    p x = true ∧
    findIndex p l = Z.of_nat (length before).
Proof.
  intros Hf. destruct (findIndex_Some p l x Hf) as (k & Hidx & Hk & Hpx & Hlt).
  exists (take k l), (drop (S k) l).
  assert (k < length l)%nat as Hlen by (by eapply lookup_lt_Some).
  repeat apply conj.
  - by rewrite take_drop_middle.
  - intros y Hy. apply list_elem_of_lookup in Hy as [j Hj].
    pose proof (lookup_lt_Some _ _ _ Hj) as Hjk. rewrite length_take in Hjk.
    rewrite lookup_take_lt in Hj by lia. apply (Hlt j y); [lia | done].
  - done.
  - rewrite Hidx, length_take. f_equal. lia.
Qed.

(** X2: a successful DELETE removes exactly one entity, the first one that
    carries the id; the entities before and after it stay, in their order,
    and the other collection is untouched.  Stated for users and for
    products. *)
Theorem X2_delete_removes_the_first_carrier (proc : Process) (req : Request) (st : Store) :
  (∀ old : User,
     array_find (fun u => id_is_param req (user_id u)) (users st) = Some old →
     ∃ before after,
       users st = before ++ old :: after ∧
       (∀ u, u ∈ before → id_is_param req (user_id u) = false) ∧
       deleteUser proc req st =
         ({| users := before ++ after; products := products st |},
          Sent {| status := 200;
                  json := [("success", VBool true);
                           ("message", VStr "User deleted successfully")] |})) ∧
  (∀ old : Product,
     array_find (fun p => id_is_param req (product_id p)) (products st) = Some old →
     ∃ before after,
       products st = before ++ old :: after ∧
       (∀ p, p ∈ before → id_is_param req (product_id p) = false) ∧
       deleteProduct proc req st =
         ({| users := users st; products := before ++ after |},
          Sent {| status := 200;
                  json := [("success", VBool true);
                           ("message", VStr "Product deleted successfully")] |})).
Proof.
  split.
  - intros old Hf.
    destruct (array_find_split _ _ _ Hf) as (b & a & Hl & Hb & _ & Hidx).
    exists b, a. split; [done|]. split; [done|].
    handler_unfold deleteUser. rewrite Hidx.
    replace (Z.of_nat (length b) =? -1) with false by (symmetry; apply Z.eqb_neq; lia).
    unfold set_users. by rewrite Nat2Z.id, Hl, delete_middle.
  - intros old Hf.
    destruct (array_find_split _ _ _ Hf) as (b & a & Hl & Hb & _ & Hidx).
    exists b, a. split; [done|]. split; [done|].
    handler_unfold deleteProduct. rewrite Hidx.
    replace (Z.of_nat (length b) =? -1) with false by (symmetry; apply Z.eqb_neq; lia).
    unfold set_products. by rewrite Nat2Z.id, Hl, delete_middle.
Qed.

(** X2 on the store that holds two users with the id "2" (Jane first):
    DELETE /api/users/2 removes Jane and leaves the other one. *)
Lemma X2_delete_removes_the_first_carrier_witness :
  let req := with_params {["id" := "2"]} (request DELETE "/api/users/2" []) in
  array_find (fun u => id_is_param req (user_id u)) (users store_after_delete_1_post)
    = Some jane ∧
  ∃ before after,
    users store_after_delete_1_post = before ++ jane :: after ∧
    (∀ u, u ∈ before → id_is_param req (user_id u) = false) ∧
    deleteUser (production 7) req store_after_delete_1_post =
      ({| users := before ++ after; products := products store_after_delete_1_post |},
       Sent {| status := 200;
               json := [("success", VBool true);
                        ("message", VStr "User deleted successfully")] |}).
Proof.
  intros req. split; [reflexivity|].
  exact (proj1 (X2_delete_removes_the_first_carrier (production 7) req
                  store_after_delete_1_post) jane eq_refl).
Defined.

(** ** An id that no entity carries *)

Lemma array_find_no_carrier {A} (key : A → string) (req : Request) (i : string)
    (l : list A) :
  params req !! "id" = Some i →
  (∀ x, x ∈ l → key x ≠ i) →
  array_find (fun x => id_is_param req (key x)) l = None.
Proof.
  intros Hp Hno. apply array_find_None. intros x Hx.
  apply (id_is_param_false _ _ _ Hp). by apply Hno.
Qed.

(** X3: when no entity of the collection carries the requested id, GET, PUT
    and DELETE on that id all hand the same 404 error to the error handler
    ("User not found", "Product not found") and leave the store as it was;
    a PUT does so whatever its payload. *)
Theorem X3_unknown_id_is_not_found (proc : Process) (req : Request) (st : Store)
    (i : string) :
  params req !! "id" = Some i →
  ((∀ u, u ∈ users st → user_id u ≠ i) →
   getUser proc req st = (st, Next (AppError "User not found" 404)) ∧
   updateUser proc req st = (st, Next (AppError "User not found" 404)) ∧
   deleteUser proc req st = (st, Next (AppError "User not found" 404))) ∧
  ((∀ p, p ∈ products st → product_id p ≠ i) →
   getProduct proc req st = (st, Next (AppError "Product not found" 404)) ∧
   updateProduct proc req st = (st, Next (AppError "Product not found" 404)) ∧
   deleteProduct proc req st = (st, Next (AppError "Product not found" 404))).
Proof.
  intros Hp. split; intros Hno.
  - pose proof (array_find_no_carrier user_id req i (users st) Hp Hno) as Hf.
    auto using getUser_missing, updateUser_missing, deleteUser_missing.
  - pose proof (array_find_no_carrier product_id req i (products st) Hp Hno) as Hf.
    auto using getProduct_missing, updateProduct_missing, deleteProduct_missing.
Qed.

(** X3 at the seeded store: no user carries the id "99". *)
Lemma X3_unknown_id_is_not_found_witness :
  let req := with_params {["id" := "99"]}
               (request PUT "/api/users/99" [("name", JStr "Nobody")]) in
  updateUser (production 5) req (initial_store 0 0) =
    (initial_store 0 0, Next (AppError "User not found" 404)).
Proof.
  intros req.
  refine (proj1 (proj2 (proj1 (X3_unknown_id_is_not_found (production 5) req
                                 (initial_store 0 0) "99" eq_refl) _))).
  intros u Hu. simpl in Hu.
  repeat (apply elem_of_cons in Hu as [->|Hu]; [discriminate|]).
  by apply elem_of_nil in Hu.
Defined.

(** ** PUT followed by GET, PUT twice, PUT with nothing to change *)






Lemma or_else_idem (v old : jsval) :
  or_else v (or_else v old) = or_else v old.
Proof. unfold or_else. by destruct (ToBoolean v) eqn:Hv; rewrite ?Hv. Qed.

Lemma number_override_idem (v : jsval) (old : number) :
  (if negb (is_undefined v) then ToNumber v
   else if negb (is_undefined v) then ToNumber v else old) =
  (if negb (is_undefined v) then ToNumber v else old).
Proof. by destruct (is_undefined v). Qed.

(** PUT /api/users/:id, given the position of the first carrier. *)
Lemma updateUser_at (proc : Process) (req : Request) (st : Store) (k : nat) (old : User) :
  users st !! k = Some old →
  id_is_param req (user_id old) = true →
  (∀ j y, (j < k)%nat → users st !! j = Some y → id_is_param req (user_id y) = false) →
  let updated :=
    mkUser (user_id old)
           (or_else (obj_get (body req) "name") (user_name old))
           (or_else (obj_get (body req) "email") (user_email old))
           (user_createdAt old) in
  updateUser proc req st =
    (set_users (<[k := updated]> (users st)) st,
     Sent {| status := 200;
             json := [("success", VBool true);
                      ("message", VStr "User updated successfully");
                      ("data", VUser updated)] |}).
Proof.
  intros Hk Hp Hlt. handler_unfold updateUser. unfold findIndex.
  rewrite (findIndex_from_Some _ _ 0 old k Hk Hp Hlt).
  replace (0 + Z.of_nat k =? -1) with false by (symmetry; apply Z.eqb_neq; lia).
  by rewrite Z.add_0_l, Nat2Z.id, Hk.
Qed.

Lemma updateProduct_at (proc : Process) (req : Request) (st : Store) (k : nat)
    (old : Product) :
  products st !! k = Some old →
  id_is_param req (product_id old) = true →
  (∀ j y, (j < k)%nat → products st !! j = Some y →
          id_is_param req (product_id y) = false) →
  let price := obj_get (body req) "price" in
  let stock := obj_get (body req) "stock" in
  let updated :=
    mkProduct (product_id old)
              (or_else (obj_get (body req) "name") (product_name old))
              (if negb (is_undefined price) then ToNumber price else product_price old)
              (or_else (obj_get (body req) "category") (product_category old))
              (if negb (is_undefined stock) then ToNumber stock else product_stock old) in
  updateProduct proc req st =
    (set_products (<[k := updated]> (products st)) st,
     Sent {| status := 200;
             json := [("success", VBool true);
                      ("message", VStr "Product updated successfully");
                      ("data", VProduct updated)] |}).
Proof.
  intros Hk Hp Hlt. handler_unfold updateProduct. unfold findIndex.
  rewrite (findIndex_from_Some _ _ 0 old k Hk Hp Hlt).
  replace (0 + Z.of_nat k =? -1) with false by (symmetry; apply Z.eqb_neq; lia).
  by rewrite Z.add_0_l, Nat2Z.id, Hk.
Qed.

(** X5: PUT is idempotent.  Sending the same update a second time, at any
    later clock reading, gives the same response as the first time and leaves
    the store as the first PUT left it; this holds for a 404 as well. *)
Theorem X5_put_is_idempotent (proc proc' : Process) (req : Request) (st : Store) :
  updateUser proc' req (fst (updateUser proc req st)) = updateUser proc req st ∧
  updateProduct proc' req (fst (updateProduct proc req st)) = updateProduct proc req st.
Proof.
  split.
  - destruct (array_find (fun u => id_is_param req (user_id u)) (users st))
      as [old|] eqn:Hf.
    + destruct (array_find_Some _ _ _ Hf) as (_ & _ & Hpold & _).
      destruct (updateUser_found proc req st old Hf) as (k & Hk & Hlt & Hupd).
      simpl in Hupd. rewrite Hupd. simpl.
      rewrite (updateUser_at proc' req _ k
                 (mkUser (user_id old)
                    (or_else (obj_get (body req) "name") (user_name old))
                    (or_else (obj_get (body req) "email") (user_email old))
                    (user_createdAt old))); simpl.
      * unfold set_users. simpl. by rewrite list_insert_insert_eq, !or_else_idem.
      * apply list_lookup_insert_eq. by eapply lookup_lt_Some.
      * done.
      * intros j y Hj Hy. rewrite list_lookup_insert_ne in Hy by lia.
        by apply (Hlt j).
    + rewrite (updateUser_missing proc req st Hf). simpl.
      by apply updateUser_missing.
  - destruct (array_find (fun p => id_is_param req (product_id p)) (products st))
      as [old|] eqn:Hf.
    + destruct (array_find_Some _ _ _ Hf) as (_ & _ & Hpold & _).
      destruct (updateProduct_found proc req st old Hf) as (k & Hk & Hlt & Hupd).
      simpl in Hupd. rewrite Hupd. simpl.
      rewrite (updateProduct_at proc' req _ k
                 (mkProduct (product_id old)
                    (or_else (obj_get (body req) "name") (product_name old))
                    (if negb (is_undefined (obj_get (body req) "price"))
                     then ToNumber (obj_get (body req) "price")
                     else product_price old)
                    (or_else (obj_get (body req) "category") (product_category old))
                    (if negb (is_undefined (obj_get (body req) "stock"))
                     then ToNumber (obj_get (body req) "stock")
                     else product_stock old))); simpl.
      * unfold set_products. simpl.
        by rewrite list_insert_insert_eq, !or_else_idem, !number_override_idem.
      * apply list_lookup_insert_eq. by eapply lookup_lt_Some.
      * done.
      * intros j y Hj Hy. rewrite list_lookup_insert_ne in Hy by lia.
        by apply (Hlt j).
    + rewrite (updateProduct_missing proc req st Hf). simpl.
      by apply updateProduct_missing.
Qed.

Lemma or_else_falsy (v old : jsval) : ToBoolean v = false → or_else v old = old.
Proof. unfold or_else. by intros ->. Qed.

(** X6: a PUT whose payload has no usable field (name, email and category
    absent or falsy, price and stock absent) changes nothing: it answers 200
    with the entity as stored and leaves the store as it was.  In particular
    a payload cannot change an id or a creation date, and fields the handler
    does not know are ignored. *)
Theorem X6_put_without_usable_fields (proc : Process) (req : Request) (st : Store) :
  (∀ old : User,
     array_find (fun u => id_is_param req (user_id u)) (users st) = Some old →
     ToBoolean (obj_get (body req) "name") = false →
     ToBoolean (obj_get (body req) "email") = false →
     updateUser proc req st =
       (st, Sent {| status := 200;
                    json := [("success", VBool true);
                             ("message", VStr "User updated successfully");
                             ("data", VUser old)] |})) ∧
  (∀ old : Product,
     array_find (fun p => id_is_param req (product_id p)) (products st) = Some old →
     ToBoolean (obj_get (body req) "name") = false →
     ToBoolean (obj_get (body req) "category") = false →
     obj_get (body req) "price" = JUndefined →
     obj_get (body req) "stock" = JUndefined →
     updateProduct proc req st =
       (st, Sent {| status := 200;
                    json := [("success", VBool true);
                             ("message", VStr "Product updated successfully");
                             ("data", VProduct old)] |})).
Proof.
  split.
  - intros old Hf Hn He.
    destruct (updateUser_found proc req st old Hf) as (k & Hk & _ & ->).
    rewrite (or_else_falsy _ _ Hn), (or_else_falsy _ _ He).
    destruct old, st. simpl in *. unfold set_users. simpl.
    by rewrite (list_insert_id _ _ _ Hk).
  - intros old Hf Hn Hc Hp Hs.
    destruct (updateProduct_found proc req st old Hf) as (k & Hk & _ & ->).
    rewrite (or_else_falsy _ _ Hn), (or_else_falsy _ _ Hc), Hp, Hs.
    destruct old, st. simpl in *. unfold set_products. simpl.
    by rewrite (list_insert_id _ _ _ Hk).
Qed.

(** X6 at the seeded store: PUT /api/products/1 with the payload
    {id: "9", name: ""} returns the laptop unchanged. *)
Lemma X6_put_without_usable_fields_witness :
  let req := with_params {["id" := "1"]}
               (request PUT "/api/products/1" [("id", JStr "9"); ("name", JStr "")]) in
  updateProduct (production 5) req (initial_store 0 0) =
    (initial_store 0 0,
     Sent {| status := 200;
             json := [("success", VBool true);
                      ("message", VStr "Product updated successfully");
                      ("data", VProduct laptop)] |}).
Proof.
  intros req.
  exact (proj2 (X6_put_without_usable_fields (production 5) req (initial_store 0 0))
               laptop eq_refl eq_refl eq_refl eq_refl eq_refl).
Defined.

(** ** The status codes the API answers with *)





(** ** Ids after a delete *)


(** A successful delete, with the array split around the removed entity. *)
Lemma deleteUser_split (proc : Process) (req : Request) (st : Store) (old : User) :
  array_find (fun u => id_is_param req (user_id u)) (users st) = Some old →
  ∃ before after,
    users st = before ++ old :: after ∧
    (∀ u, u ∈ before → id_is_param req (user_id u) = false) ∧
    deleteUser proc req st =
      ({| users := before ++ after; products := products st |},
       Sent {| status := 200;
               json := [("success", VBool true);
                        ("message", VStr "User deleted successfully")] |}).
Proof.
  intros Hf.
  destruct (array_find_split _ _ _ Hf) as (b & a & Hl & Hb & _ & Hidx).
  exists b, a. split; [done|]. split; [done|].
  handler_unfold deleteUser. rewrite Hidx.
  replace (Z.of_nat (length b) =? -1) with false by (symmetry; apply Z.eqb_neq; lia).
  unfold set_users. by rewrite Nat2Z.id, Hl, delete_middle.
Qed.

Lemma deleteProduct_split (proc : Process) (req : Request) (st : Store) (old : Product) :
  array_find (fun p => id_is_param req (product_id p)) (products st) = Some old →
  ∃ before after,
    products st = before ++ old :: after ∧
    (∀ p, p ∈ before → id_is_param req (product_id p) = false) ∧
    deleteProduct proc req st =
      ({| users := users st; products := before ++ after |},
       Sent {| status := 200;
               json := [("success", VBool true);
                        ("message", VStr "Product deleted successfully")] |}).
Proof.
  intros Hf.
  destruct (array_find_split _ _ _ Hf) as (b & a & Hl & Hb & _ & Hidx).
  exists b, a. split; [done|]. split; [done|].
  handler_unfold deleteProduct. rewrite Hidx.
  replace (Z.of_nat (length b) =? -1) with false by (symmetry; apply Z.eqb_neq; lia).
  unfold set_products. by rewrite Nat2Z.id, Hl, delete_middle.
Qed.



(** ** What each method can do to the store *)

(** The effect of a route's handler on the store, by the method the route
    is registered for (GET, POST, PUT or DELETE: the table has no other). *)
Lemma route_effect (r : Route) (proc : Process) (req : Request) (st : Store) :
  r ∈ routes →
  let st' := fst (route_handler r proc req st) in
  match route_method r with
  | GET => st' = st
  | POST =>
      st' = st ∨
      (∃ e, users st' = users st ++ [e] ∧ products st' = products st) ∨
      (∃ e, products st' = products st ++ [e] ∧ users st' = users st)
  | PUT =>
      user_id <$> users st' = user_id <$> users st ∧
      user_createdAt <$> users st' = user_createdAt <$> users st ∧
      product_id <$> products st' = product_id <$> products st ∧
      (users st' = users st ∨ products st' = products st)
  | DELETE =>
      st' = st ∨
      (∃ b x a, users st = b ++ x :: a ∧ users st' = b ++ a ∧
                products st' = products st) ∨
      (∃ b x a, products st = b ++ x :: a ∧ products st' = b ++ a ∧
                users st' = users st)
  | _ => False
  end.
Proof.
  intros Hr st'. subst st'. each_route Hr; simpl.
  - done.
  - apply getUser_reads.
  - destruct (user_payload_ok req) eqn:Hok.
    + rewrite (createUser_accepts proc req st Hok). simpl. right. left. eauto.
    + rewrite (createUser_rejects proc req st Hok). by left.
  - destruct (array_find (fun u => id_is_param req (user_id u)) (users st))
      as [old|] eqn:Hf.
    + destruct (updateUser_found proc req st old Hf) as (k & Hk & _ & ->). simpl.
      rewrite (fmap_insert_same_key user_id _ _ old) by done.
      rewrite (fmap_insert_same_key user_createdAt _ _ old) by done. auto.
    + rewrite (updateUser_missing proc req st Hf). simpl. auto.
  - destruct (array_find (fun u => id_is_param req (user_id u)) (users st))
      as [old|] eqn:Hf.
    + destruct (deleteUser_split proc req st old Hf) as (b & a & Hl & _ & ->). simpl.
      right. left. by exists b, old, a.
    + rewrite (deleteUser_missing proc req st Hf). by left.
  - apply listProducts_reads.
  - apply getProduct_reads.
  - destruct (product_payload_ok req) eqn:Hok.
    + rewrite (createProduct_accepts proc req st Hok). simpl. right. right. eauto.
    + rewrite (createProduct_rejects proc req st Hok). by left.
  - destruct (array_find (fun p => id_is_param req (product_id p)) (products st))
      as [old|] eqn:Hf.
    + destruct (updateProduct_found proc req st old Hf) as (k & Hk & _ & ->). simpl.
      rewrite (fmap_insert_same_key product_id _ _ old) by done. auto.
    + rewrite (updateProduct_missing proc req st Hf). simpl. auto.
  - destruct (array_find (fun p => id_is_param req (product_id p)) (products st))
      as [old|] eqn:Hf.
    + destruct (deleteProduct_split proc req st old Hf) as (b & a & Hl & _ & ->). simpl.
      right. right. by exists b, old, a.
    + rewrite (deleteProduct_missing proc req st Hf). by left.
  - done.
  - done.
Qed.

(** X9: only POST adds and only DELETE removes.  A request with a method
    other than POST never makes a collection longer, one with a method other
    than DELETE never makes one shorter, and a PUT keeps the ids and the
    creation dates of all entities, position by position.  Whatever the
    request, at most one of the two collections changes, and its length by
    at most one. *)
Theorem X9_only_post_adds_only_delete_removes (proc : Process) (req : Request)
    (st : Store) :
  let st' := fst (app proc req st) in
  (method req ≠ POST →
   (length (users st') ≤ length (users st))%nat ∧
   (length (products st') ≤ length (products st))%nat) ∧
  (method req ≠ DELETE →
   (length (users st) ≤ length (users st'))%nat ∧
   (length (products st) ≤ length (products st'))%nat) ∧
  (method req = PUT →
   user_id <$> users st' = user_id <$> users st ∧
   user_createdAt <$> users st' = user_createdAt <$> users st ∧
   product_id <$> products st' = product_id <$> products st) ∧
  (users st' = users st ∨ products st' = products st) ∧
  (length (users st') ≤ length (users st) + 1)%nat ∧
  (length (users st) ≤ length (users st') + 1)%nat ∧
  (length (products st') ≤ length (products st) + 1)%nat ∧
  (length (products st) ≤ length (products st') + 1)%nat.
Proof.
  intros st'. subst st'. unfold app.
  destruct (dispatch routes req) as [[h req']|] eqn:Hd;
    [|simpl; repeat split; auto; lia].
  destruct (dispatch_Some _ _ _ _ Hd) as (r & ps & Hr & Hm & -> & ->).
  apply route_match_method in Hm.
  pose proof (route_effect r proc (with_params ps req) st Hr) as Heff.
  simpl in Heff.
  replace (fst (let (st', o) := route_handler r proc (with_params ps req) st in
                match o with
                | Sent r0 => (st', r0)
                | Next e => (st', errorHandler proc e)
                end))
    with (fst (route_handler r proc (with_params ps req) st))
    by (by destruct (route_handler r proc (with_params ps req) st) as [? []]).
  set (st' := fst (route_handler r proc (with_params ps req) st)) in *.
  clearbody st'.
  destruct (route_method r), (method req); simpl in Hm; try discriminate;
    repeat match type of Heff with
           | _ ∧ _ => let H := fresh "Heq" in destruct Heff as [H Heff]
           end;
    effect_cases Heff.
  all: repeat match goal with H : _ ∧ _ |- _ => destruct H end.
  all: try subst st'.
  all: repeat split; intros; try done; auto.
  all: repeat match goal with
              | H : _ <$> _ = _ <$> _ |- _ =>
                  apply (f_equal length) in H; rewrite !length_fmap in H
              | H : users _ = _ |- _ =>
                  apply (f_equal length) in H; rewrite ?length_app in H; simpl in H
              | H : products _ = _ |- _ =>
                  apply (f_equal length) in H; rewrite ?length_app in H; simpl in H
              end; lia.
Qed.

(** X9 at the seeded store: DELETE /api/users/1 is not a POST and makes no
    collection longer. *)
Lemma X9_only_post_adds_only_delete_removes_witness :
  let st' := fst (app (production 5) (request DELETE "/api/users/1" [])
                      (initial_store 0 0)) in
  (length (users st') ≤ length (users (initial_store 0 0)))%nat ∧
  (length (products st') ≤ length (products (initial_store 0 0)))%nat.
Proof.
  refine (proj1 (X9_only_post_adds_only_delete_removes (production 5)
                   (request DELETE "/api/users/1" []) (initial_store 0 0)) _).
  discriminate.
Defined.

(** ** What User Create requires *)

Lemma ToBoolean_false (v : jsval) :
  ToBoolean v = false ↔
  v = JUndefined ∨ v = JNull ∨ v = JBool false ∨
  v = JNum (Num 0) ∨ v = JNum NaN ∨ v = JStr "".
Proof.
  split.
  - destruct v as [| |[]|[|z]|s|?|?]; simpl; try done; auto 6.
    + intros H. apply negb_false_iff, Z.eqb_eq in H as ->. auto 6.
    + intros H. apply negb_false_iff, String.eqb_eq in H as ->. auto 6.
  - intros [->|[->|[->|[->|[->| ->]]]]]; reflexivity.
Qed.

(** X10: POST /api/users is rejected with the 400 error exactly when name or
    email is falsy, that is absent, null, false, 0, NaN or the empty string;
    any other value is accepted and stored as it is, without a type check, so
    a name that is a number or an array yields a user with that name. *)
Theorem X10_user_create_validation (proc : Process) (req : Request) (st : Store) :
  let name := obj_get (body req) "name" in
  let email := obj_get (body req) "email" in
  let falsy := fun v => v = JUndefined ∨ v = JNull ∨ v = JBool false ∨
                        v = JNum (Num 0) ∨ v = JNum NaN ∨ v = JStr "" in
  (createUser proc req st = (st, Next (AppError "Name and email are required" 400)) ↔
   falsy name ∨ falsy email) ∧
  (¬ falsy name → ¬ falsy email →
   ∃ u, createUser proc req st =
          (set_users (users st ++ [u]) st,
           Sent {| status := 201;
                   json := [("success", VBool true);
                            ("message", VStr "User created successfully");
                            ("data", VUser u)] |}) ∧
        user_name u = name ∧ user_email u = email).
Proof.
  intros name email falsy.
  assert (user_payload_ok req = false ↔ falsy name ∨ falsy email) as Hrej.
  { unfold user_payload_ok. fold name email. rewrite andb_false_iff.
    subst falsy. simpl. by rewrite <- !ToBoolean_false. }
  split.
  - rewrite <- Hrej. split.
    + intros Hc. destruct (user_payload_ok req) eqn:Hok; [|done].
      rewrite (createUser_accepts proc req st Hok) in Hc. discriminate.
    + apply createUser_rejects.
  - intros Hn He.
    assert (user_payload_ok req = true) as Hok.
    { destruct (user_payload_ok req); [done|]. destruct (proj1 Hrej eq_refl); done. }
    pose proof (createUser_accepts proc req st Hok) as Hc. simpl in Hc.
    eexists. split; [exact Hc|]. done.
Qed.

(** X10 at the seeded store: the payload {name: 7, email: ["a", "b"]} is
    accepted and stored as given. *)
Lemma X10_user_create_validation_witness :
  let req := request POST "/api/users"
               [("name", JNum (Num 7)); ("email", JArr [JStr "a"; JStr "b"])] in
  ∃ u, createUser (production 5) req (initial_store 0 0) =
         (set_users (seed_users 0 0 ++ [u]) (initial_store 0 0),
          Sent {| status := 201;
                  json := [("success", VBool true);
                           ("message", VStr "User created successfully");
                           ("data", VUser u)] |}) ∧
       user_name u = JNum (Num 7) ∧ user_email u = JArr [JStr "a"; JStr "b"].
Proof.
  intros req.
  refine (proj2 (X10_user_create_validation (production 5) req (initial_store 0 0)) _ _);
    intros [H|[H|[H|[H|[H|H]]]]]; discriminate H.
Defined.

(** ** Price bounds that no product meets *)






(** ** Routes do not overlap *)

(** X12: no request is taken by two routes of the table, so the order in
    which the routes are registered does not matter: a request that a route
    matches is dispatched to that route's handler, with the parameters of
    that match. *)
Theorem X12_routes_do_not_overlap (req : Request) (r1 : Route)
    (ps1 : gmap string string) :
  r1 ∈ routes → route_match req r1 = Some ps1 →
  (∀ r2 ps2, r2 ∈ routes → route_match req r2 = Some ps2 → r1 = r2) ∧
  dispatch routes req = Some (route_handler r1, with_params ps1 req).
Proof.
  intros H1 Hm1.
  assert (∀ r2 ps2, r2 ∈ routes → route_match req r2 = Some ps2 → r1 = r2) as Huniq.
  { intros r2 ps2 H2 Hm2.
    unfold route_match, match_path in *.
    destruct (segments (path req)) as [segs|];
      [|by destruct (handles_method _ _), (handles_method _ _)].
    each_route H1; each_route H2; try reflexivity; simpl in *;
      destruct (method req); simpl in *; try discriminate.
    all: destruct segs as [|s1 [|s2 [|s3 [|s4 ?]]]]; simpl in *; try discriminate.
    all: repeat case_match; try discriminate.
    all: repeat match goal with
                | H : String.eqb _ _ = true |- _ => apply String.eqb_eq in H
                end; congruence. }
  split; [exact Huniq|].
  destruct (dispatch routes req) as [[h req']|] eqn:Hd.
  - destruct (dispatch_Some _ _ _ _ Hd) as (r & ps & Hr & Hm & -> & ->).
    pose proof (Huniq r ps Hr Hm) as <-. congruence.
  - rewrite dispatch_None in Hd. rewrite (Hd r1 H1) in Hm1. discriminate.
Qed.

(** X12 at GET /api/users/7: the one route that takes it is the
    get-by-id route. *)
Lemma X12_routes_do_not_overlap_witness :
  let req := request GET "/api/users/7" [] in
  dispatch routes req = Some (getUser, with_params {["id" := "7"]} req).
Proof.
  intros req.
  refine (proj2 (X12_routes_do_not_overlap req
                   (mkRoute GET [Lit "api"; Lit "users"; Param "id"] getUser)
                   {["id" := "7"]} _ eq_refl)).
  apply list_elem_of_further, list_elem_of_here.
Defined.

(** ** The id in the path *)














(** ** POST, then GET by the returned id, through the router *)



(** ** The case of the requested category *)




